(** * jscpu: a shallow embedding of the virtual CPU and its specification

    The development follows the later of the two revisions of the program
    (the one with [jmp], [cmp], [jnz] and [jze]).  The earlier revision
    ([jscpu.js]) has the same [init], [main], [exec], [add], [sub] and [mov]
    bodies; it differs in the keys of its dispatch table and in a fixed
    arity of two in [parseArgs].

    Conventions of the model
    - JavaScript strings are [string]s of 8-bit characters (the input
      format is ASCII text).
    - JavaScript numbers are modelled as exact integers or [NaN].  This
      is the program's arithmetic as long as the values involved have a
      magnitude of at most 2^53 ([exact_bound]); above it the program's
      numbers are doubles that round, and overflow to Infinity, which the
      model does not follow.  Statements about arithmetic on operand
      values bound them by [exact_bound] where the result depends on it;
      the program counter, an index into the instruction list, is always
      far below it.  Minus zero is identified with zero, which no
      operation of the program tells apart.
    - [cpu.registers] is a JavaScript object used as a map from names to
      numbers: a [gmap string number].  A missing key reads as
      [undefined], here [None].
    - A [throw] leaves the object as mutated so far, so a failed
      computation still returns the state.
    - [cpu.log] only prints; it is left out. *)

From stdpp Require Import gmap strings list fin_maps.
From Stdlib Require Import ZArith Ascii.


(** ** Strings *)

Module JsString.

(** [s.split(sep)] for a one-character separator: the pieces between the
    occurrences of [sep], never an empty array. *)
Fixpoint split (sep : ascii) (s : string) : list string :=
  match s with
  | EmptyString => [EmptyString]
  | String a s' =>
      if Ascii.eqb a sep then EmptyString :: split sep s'
      else match split sep s' with
           | [] => [String a EmptyString]
           | x :: xs => String a x :: xs
           end
  end.

(** White space and line terminators among the first 256 code units:
    TAB, LF, VT, FF, CR, SP and NBSP. *)
Definition isWhiteSpace (a : ascii) : bool :=
  existsb (Ascii.eqb a)
    ["009"; "010"; "011"; "012"; "013"; " "; "160"]%char.

Fixpoint trimStart (s : string) : string :=
  match s with
  | EmptyString => EmptyString
  | String a s' => if isWhiteSpace a then trimStart s' else s
  end.

Fixpoint trimEnd (s : string) : string :=
  match s with
  | EmptyString => EmptyString
  | String a s' =>
      match trimEnd s' with
      | EmptyString => if isWhiteSpace a then EmptyString
                       else String a EmptyString
      | t => String a t
      end
  end.

(** [s.trim()] *)
Definition trim (s : string) : string := trimEnd (trimStart s).

(** [s.substr(0,1)] and [s.substr(1)] *)
Definition substr01 (s : string) : string :=
  match s with
  | EmptyString => EmptyString
  | String a _ => String a EmptyString
  end.

Definition substr1 (s : string) : string :=
  match s with
  | EmptyString => EmptyString
  | String _ s' => s'
  end.

(** Does [s] contain the character [a]? *)
Fixpoint contains (a : ascii) (s : string) : bool :=
  match s with
  | EmptyString => false
  | String b s' => Ascii.eqb b a || contains a s'
  end.

End JsString.

(** ** Numbers *)

Inductive number : Type :=
| Num (z : Z)
| NaN.

Global Instance number_eq_dec : EqDecision number.
Proof. solve_decision. Defined.

Module JsNumber.

(** [x + y] and [x - y] on numbers *)
Definition add (x y : number) : number :=
  match x, y with
  | Num a, Num b => Num (a + b)
  | _, _ => NaN
  end.

Definition sub (x y : number) : number :=
  match x, y with
  | Num a, Num b => Num (a - b)
  | _, _ => NaN
  end.

(** [x < y], [x > y], [x >= y]: false as soon as one side is [NaN] *)
Definition lt (x y : number) : bool :=
  match x, y with
  | Num a, Num b => (a <? b)%Z
  | _, _ => false
  end.

Definition gt (x y : number) : bool := lt y x.

Definition ge (x y : number) : bool :=
  match x, y with
  | Num a, Num b => (b <=? a)%Z
  | _, _ => false
  end.

(** [x === y] on numbers: [NaN] equals nothing *)
Definition strict_eq (x y : number) : bool :=
  match x, y with
  | Num a, Num b => (a =? b)%Z
  | _, _ => false
  end.

(** [Math.floor] is the identity on integers and on [NaN]. *)
Definition floor (x : number) : number := x.

(** ToNumber of a property read: [undefined] becomes [NaN]. *)
Definition toNumber (v : option number) : number :=
  match v with
  | Some n => n
  | None => NaN
  end.

(** The value of a digit in any radix up to 36. *)
Definition digitValue (a : ascii) : option Z :=
  let n := Z.of_N (N_of_ascii a) in
  if ((48 <=? n) && (n <=? 57))%Z then Some (n - 48)%Z
  else if ((97 <=? n) && (n <=? 122))%Z then Some (n - 87)%Z
  else if ((65 <=? n) && (n <=? 90))%Z then Some (n - 55)%Z
  else None.

(** The longest prefix of digits of the radix, as an integer; [acc] is
    [None] until a digit has been read. *)
Fixpoint parseDigits (radix : Z) (s : string) (acc : option Z) : option Z :=
  match s with
  | EmptyString => acc
  | String a s' =>
      match digitValue a with
      | Some d =>
          if (d <? radix)%Z
          then parseDigits radix s' (Some (radix * default 0%Z acc + d)%Z)
          else acc
      | None => acc
      end
  end.

(** [parseInt(s)] without a radix argument: leading white space, a sign,
    an optional [0x] prefix, then the digits; [NaN] without a digit. *)
Definition parseInt (s : string) : number :=
  let s1 := JsString.trimStart s in
  let '(sign, s2) :=
    match s1 with
    | String "-" r => ((-1)%Z, r)
    | String "+" r => (1%Z, r)
    | _ => (1%Z, s1)
    end in
  let '(radix, s3) :=
    match s2 with
    | String "0" (String "x" r) => (16%Z, r)
    | String "0" (String "X" r) => (16%Z, r)
    | _ => (10%Z, s2)
    end in
  match parseDigits radix s3 None with
  | Some n => Num (sign * n)
  | None => NaN
  end.

End JsNumber.

(** 2^53: up to this magnitude every integer is a double, so that sums,
    differences and parsed immediates within it are exact in the
    program. *)
Definition exact_bound : Z := 9007199254740992.

(** ** The machine *)

(** What the program throws.  The program throws message strings; each
    constructor is one message, with the values spliced into it.  A line
    index is the value of [cpu.registers.pc] when the message is built
    ([None] when the slot reads as [undefined]).

    - [NoSource]: 'No assembly source received' (empty program)
    - [NoSpace line]: 'Syntax error, line .., expected at least one space'
      (missing operand)
    - [UnknownFunction line inst]: 'Syntax error, line .., unknown
      function ..' (unknown opcode)
    - [NoArguments inst line]: 'Syntax error, no arguments provided for
      function .. on line ..' (missing operand)
    - [InvalidArgCount line]: 'Syntax error, invalid arg count on line ..'
      (arity)
    - [JmpOutOfBounds jd]: 'Syntax error: jmp called to address that is
      out of bounds: ..'
    - [UnknownRegister rName line]: 'Syntax error, unknown register ..
      called on line ..'
    - [TypeError]: raised by the runtime, when a value that is not a
      function is called or a property of [undefined] is read. *)
Inductive error : Type :=
| NoSource
| NoSpace (line : option number)
| UnknownFunction (line : option number) (inst : string)
| NoArguments (inst : string) (line : option number)
| InvalidArgCount (line : option number)
| JmpOutOfBounds (jd : number)
| UnknownRegister (rName : string) (line : option number)
| TypeError.

(** The handlers a dispatch-table entry can hold. *)
Inductive handler : Type :=
| h_add | h_sub | h_mov | h_jmp | h_cmp | h_jnz | h_jze.

(** The object built by [new jscpu()]: the instruction list, its length as
    recorded by [init], and the register object. *)
Record cpu : Type := Cpu {
  inst : list string;
  pEnd : Z;
  registers : gmap string number
}.

(** [cpu.regSize], assigned by [reset] and never changed. *)
Definition regSize : Z := 256.

(** [cpu.instructionSet], assigned by [reset] to the same table each time
    and never changed.  [cpu.cgt] and [cpu.clt] are not defined anywhere,
    so these two keys are present and hold [undefined], here [None]. *)
Definition instructionSet : gmap string (option handler) :=
  list_to_map
    [("add", Some h_add); ("sub", Some h_sub); ("mov", Some h_mov);
     ("jmp", Some h_jmp); ("cmp", Some h_cmp); ("cgt", None);
     ("clt", None); ("jnz", Some h_jnz); ("jze", Some h_jze)].

(** The register object literal of [reset]. *)
Definition initial_registers : gmap string number :=
  list_to_map
    [("r0", Num 0); ("r1", Num 0); ("s", Num 0);
     ("ovfl", Num 0); ("udfl", Num 0); ("pc", Num 0)].

(** The constructor.  [registers] is assigned by [reset] only; [init]
    resets before anything reads it, so the fresh object is given the
    reset value. *)
Definition jscpu : cpu :=
  {| inst := []; pEnd := 0; registers := initial_registers |}.

Definition reset (c : cpu) : cpu :=
  {| inst := inst c; pEnd := pEnd c; registers := initial_registers |}.

(** [cpu.registers.pc] *)
Definition pc (c : cpu) : option number := registers c !! "pc".

(** [cpu.registers[k] = v], without validation *)
Definition write (k : string) (v : number) (c : cpu) : cpu :=
  {| inst := inst c; pEnd := pEnd c; registers := <[k := v]> (registers c) |}.

(** *** Computations that may throw *)

Inductive result (A : Type) : Type :=
| Ret (a : A) (c : cpu)
| Throw (e : error) (c : cpu).
Arguments Ret {A} a c.
Arguments Throw {A} e c.

Definition M (A : Type) : Type := cpu → result A.

Global Instance M_ret : MRet M := λ A a c, Ret a c.
Global Instance M_bind : MBind M := λ A B f m c,
  match m c with
  | Ret a c' => f a c'
  | Throw e c' => Throw e c'
  end.

Definition modify (f : cpu → cpu) : M unit := λ c, Ret tt (f c).

(** *** Register bank *)

Definition validateRegister (rName : string) : M unit := λ c,
  match registers c !! rName with
  | Some _ => Ret tt c
  | None => Throw (UnknownRegister rName (pc c)) c
  end.

Definition getRegisterValue (rName : string) : M number := λ c,
  match validateRegister rName c with
  | Ret _ c' => Ret (JsNumber.toNumber (registers c' !! rName)) c'
  | Throw e c' => Throw e c'
  end.

Definition setRegisterValue (rName : string) (val : number) : M unit :=
  _ ← validateRegister rName;
  modify (write rName val).

(** *** Argument resolver

    [parseArgs] is called with a literal third argument everywhere, so its
    two modes are two definitions over the common part [argToken]:
    [parseArgsRaw] is [exec === false], [parseArgs] is every other value
    of [exec] (including a missing one). *)

(** The split, the arity check and [ara[ind]].  Every call has
    [ind < len], so past the check the token exists; reading a property
    of a missing one is a [TypeError]. *)
Definition argToken (args : string) (ind len : nat) : M string := λ c,
  let ara := JsString.split "," args in
  if (length ara <? len)%nat then Throw (InvalidArgCount (pc c)) c
  else match ara !! ind with
       | Some rv => Ret rv c
       | None => Throw TypeError c
       end.

Definition parseArgsRaw (args : string) (ind len : nat) : M string :=
  argToken args ind len.

Definition parseArgs (args : string) (ind len : nat) : M number :=
  rv ← argToken args ind len;
  if decide (JsString.substr01 rv = "#")
  then mret (JsNumber.parseInt (JsString.substr1 rv))
  else getRegisterValue rv.

(** *** Instruction handlers *)

Definition add (arg : string) : M unit :=
  ad ← parseArgs arg 0 2;
  cv ← parseArgs arg 1 2;
  dr ← parseArgsRaw arg 1 2;
  let res := JsNumber.floor (JsNumber.add ad cv) in
  res ← (if JsNumber.ge res (Num regSize)
         then _ ← setRegisterValue "ovfl" (Num 1); mret (Num (regSize - 1))
         else mret res);
  setRegisterValue dr res.

Definition mov (arg : string) : M unit :=
  dr ← parseArgsRaw arg 0 2;
  dv ← parseArgs arg 1 2;
  setRegisterValue dr dv.

Definition sub (arg : string) : M unit :=
  sd ← parseArgs arg 0 2;
  cv ← parseArgs arg 1 2;
  dr ← parseArgsRaw arg 1 2;
  let res := JsNumber.floor (JsNumber.sub cv sd) in
  res ← (if JsNumber.lt res (Num 0)
         then _ ← setRegisterValue "udfl" (Num 1); mret (Num 0)
         else mret res);
  setRegisterValue dr res.

Definition jmp (arg : string) : M unit :=
  jd ← parseArgs arg 0 1;
  ((λ c,
     if JsNumber.lt jd (Num 0) || JsNumber.gt jd (Num (pEnd c))
     then Throw (JmpOutOfBounds jd) c
     else Ret tt (write "pc" (JsNumber.sub jd (Num 1)) c)) : M unit).

Definition cmp (arg : string) : M unit :=
  fv ← parseArgs arg 0 2;
  sv ← parseArgs arg 1 2;
  let r := if JsNumber.strict_eq fv sv then Num 1 else Num 0 in
  setRegisterValue "s" r.

Definition jnz (arg : string) : M unit :=
  r ← getRegisterValue "s";
  if JsNumber.strict_eq r (Num 0) then mret tt else jmp arg.

Definition jze (arg : string) : M unit :=
  r ← getRegisterValue "s";
  if negb (JsNumber.strict_eq r (Num 0)) then mret tt else jmp arg.

Definition run_handler (h : handler) : string → M unit :=
  match h with
  | h_add => add
  | h_sub => sub
  | h_mov => mov
  | h_jmp => jmp
  | h_cmp => cmp
  | h_jnz => jnz
  | h_jze => jze
  end.

(** *** Execution loop *)

(** [cpu.registers.pc++] *)
Definition incr_pc : M unit := λ c,
  Ret tt (write "pc" (JsNumber.add (JsNumber.toNumber (pc c)) (Num 1)) c).

Definition exec (line : string) : M unit := λ c,
  match JsString.split " " line with
  | inst :: abf1 :: _ =>
      match instructionSet !! inst with
      | None => Throw (UnknownFunction (pc c) inst) c
      | Some f =>
          let args := JsString.trim abf1 in
          if decide (args = "") then Throw (NoArguments inst (pc c)) c
          else match f with
               | Some h => (_ ← run_handler h args; incr_pc) c
               | None => Throw TypeError c
               end
      end
  | _ => Throw (NoSpace (pc c)) c
  end.

(** [cpu.inst[cpu.registers.pc]]: [undefined] outside the list. *)
Definition fetch (c : cpu) : option string :=
  match pc c with
  | Some (Num z) => if (z <? 0)%Z then None else inst c !! Z.to_nat z
  | _ => None
  end.

(** The [while] loop of [main].  [fuel] bounds the number of instructions
    executed; [None] means the bound was reached with the loop still
    running.  Calling [exec] on a missing line is a [TypeError]. *)
Fixpoint main (fuel : nat) (c : cpu) : option (result unit) :=
  if JsNumber.lt (JsNumber.toNumber (pc c)) (Num (pEnd c)) then
    match fuel with
    | O => None
    | S fuel' =>
        match fetch c with
        | None => Some (Throw TypeError c)
        | Some line =>
            match exec line c with
            | Ret _ c' => main fuel' c'
            | Throw e c' => Some (Throw e c')
            end
        end
    end
  else Some (Ret tt c).

(** *** Program loader *)

(** The lines [init] pushes: trimmed, blank ones skipped. *)
Definition program_lines (asm : string) : list string :=
  filter (λ line, line ≠ "") (JsString.trim <$> JsString.split "010" asm).

(** [init] up to the call of [main]: the reset, the guard on the split
    and the lines pushed onto the list the object already has. *)
Definition load (asm : string) (c : cpu) : result unit :=
  let c := reset c in
  let rb := JsString.split "010" asm in
  if (length rb <? 1)%nat then Throw NoSource c
  else
    let inst' := inst c ++ program_lines asm in
    Ret tt {| inst := inst';
              pEnd := Z.of_nat (length inst');
              registers := registers c |}.

Definition init (fuel : nat) (asm : string) (c : cpu) : option (result unit) :=
  match load asm c with
  | Ret _ c' => main fuel c'
  | Throw e c' => Some (Throw e c')
  end.

(** The sample program at the end of the file. *)
Definition nl : string := String "010" "".
Definition source : string :=
  "mov r0,#0" +:+ nl +:+ "mov r1,#0" +:+ nl +:+
  "add #1,r0" +:+ nl +:+ "cmp #10,r0" +:+ nl +:+ "jze #2" +:+ nl +:+
  "add #1,r1" +:+ nl +:+ "mov r0,#0" +:+ nl +:+ "cmp #5,r1" +:+ nl +:+
  "jze #2" +:+ nl.

(** The state a computation ends in, thrown or not. *)
Definition state_of {A} (r : result A) : cpu :=
  match r with
  | Ret _ c => c
  | Throw _ c => c
  end.

(** A three-line program whose first line jumps over the second. *)
Definition jump_program : string :=
  "jmp #2" +:+ nl +:+ "mov r0,#1" +:+ nl +:+ "mov r1,#1".

(** The machine after loading and running a one-line program. *)
Definition after_first_run : cpu :=
  match init 5 "mov r0,#1" jscpu with
  | Some r => state_of r
  | None => jscpu
  end.

(** The sample program of the earlier revision, with the opcodes in the
    case of the later dispatch table. *)
Definition source_arith : string :=
  "mov r0,#255" +:+ nl +:+ "mov r1,#10" +:+ nl +:+
  "add r0,r1" +:+ nl +:+ "sub #50,r1" +:+ nl.

(** The register objects of two states, key by key. *)
Definition regs_list (c : cpu) : list (string * option number) :=
  (λ k, (k, registers c !! k)) <$> ["r0"; "r1"; "s"; "ovfl"; "udfl"; "pc"].

(** The errors a handler can end with, [l] being the line index they
    cite. *)
Definition handler_error (l : option number) (e : error) : Prop :=
  e = InvalidArgCount l ∨ e = TypeError
  ∨ (∃ rName, e = UnknownRegister rName l) ∨ (∃ jd, e = JmpOutOfBounds jd).

(** The fixed register set, and the register banks that hold exactly
    these names: what [reset] builds, and what every write through
    [setRegisterValue] or to [pc] preserves. *)
Definition register_names : list string :=
  ["r0"; "r1"; "s"; "ovfl"; "udfl"; "pc"].

Definition wf (c : cpu) : Prop :=
  ∀ k, is_Some (registers c !! k) ↔ k ∈ register_names.

(** ** Sentences of the specification in their own words

    Each of these is a sentence as the specification words it.  They
    are compared with the program below. *)

(** [jmp]: the target is validated against [0 .. pEnd]; within it the
    instruction ends with [pc] on the target, otherwise it fails with the
    out-of-bounds error. *)
Definition jmp_as_specified : Prop :=
  ∀ (line a : string) (rest : list string) (jd : number) (c : cpu),
    JsString.split " " line = "jmp" :: a :: rest →
    JsString.trim a ≠ "" →
    parseArgs (JsString.trim a) 0 1 c = Ret jd c →
    if JsNumber.ge jd (Num 0) && JsNumber.ge (Num (pEnd c)) jd
    then exec line c = Ret tt (write "pc" jd c)
    else exec line c = Throw (JmpOutOfBounds jd) c.


(** The line index an error message cites, when it cites one. *)
Definition cited_line (e : error) : option (option number) :=
  match e with
  | NoSpace l | UnknownFunction l _ | NoArguments _ l
  | InvalidArgCount l | UnknownRegister _ l => Some l
  | NoSource | JmpOutOfBounds _ | TypeError => None
  end.

(** The two kinds of failure of the decoding step. *)
Definition is_missing_operand (r : result unit) : bool :=
  match r with
  | Throw (NoSpace _) _ | Throw (NoArguments _ _) _ => true
  | _ => false
  end.

Definition is_unknown_opcode (r : result unit) : bool :=
  match r with
  | Throw (UnknownFunction _ _) _ => true
  | _ => false
  end.

(** The text up to the first [a] (all of it without one), and the text
    after the first [a] (empty without one). *)
Fixpoint text_before (a : ascii) (s : string) : string :=
  match s with
  | EmptyString => EmptyString
  | String b s' => if Ascii.eqb b a then EmptyString
                   else String b (text_before a s')
  end.

Fixpoint text_after (a : ascii) (s : string) : string :=
  match s with
  | EmptyString => EmptyString
  | String b s' => if Ascii.eqb b a then s' else text_after a s'
  end.

(** A failure with an unknown register or an unknown opcode cites the
    current line and leaves the register bank as it was. *)
Definition failure_as_specified : Prop :=
  ∀ (line : string) (c : cpu) (e : error) (c' : cpu),
    exec line c = Throw e c' →
    (∃ rName l, e = UnknownRegister rName l)
    ∨ (∃ l inst, e = UnknownFunction l inst) →
    cited_line e = Some (pc c) ∧ registers c' = registers c.

(** Decoding: the opcode is the text up to the first space and the
    operand text is all that follows it; a missing operand is reported
    exactly when there is no space or the operand text is blank, an
    unknown opcode exactly when the opcode is not in the table. *)
Definition decode_as_specified : Prop :=
  ∀ (line : string) (c : cpu),
    (is_missing_operand (exec line c) = true ↔
       JsString.contains " " line = false
       ∨ JsString.trim (text_after " " line) = "")
    ∧ (is_unknown_opcode (exec line c) = true ↔
       instructionSet !! text_before " " line = None).

(** A source whose lines are all blank once trimmed. *)
Definition all_blank (asm : string) : Prop :=
  Forall (λ line, JsString.trim line = "") (JsString.split "010" asm).

(** What no computation of the machine changes, and what it keeps:
    the instruction list, its recorded length, and the well-formedness of
    the register bank. *)
Definition frame (c c' : cpu) : Prop :=
  inst c' = inst c ∧ pEnd c' = pEnd c ∧ (wf c → wf c').

Definition framed {A} (m : M A) : Prop := ∀ c, frame c (state_of (m c)).

(** ** Shapes of lines *)

(** The token an instruction line names as the register it writes: the
    first operand of [mov], the second of [add] and [sub]; the other
    instructions name none. *)
Definition destination (line : string) : option string :=
  match JsString.split " " line with
  | op :: a :: _ =>
      let ara := JsString.split "," (JsString.trim a) in
      if decide (op = "mov") then ara !! 0%nat
      else if decide (op = "add" ∨ op = "sub") then ara !! 1%nat
      else None
  | _ => None
  end.

(** Lines whose opcode is one of the three branches. *)
Definition is_branch (line : string) : bool :=
  bool_decide (text_before " " line ∈ ["jmp"; "jnz"; "jze"]).

(** A line that is no branch and does not name [pc] as its destination. *)
Definition straight (line : string) : Prop :=
  is_branch line = false ∧ destination line ≠ Some "pc".

(** ** The earlier revision

    [jscpu.js] is the program before the branches were added.  Its
    handlers [add], [sub] and [mov], its register bank and its loader have
    the bodies modelled above ([parseArgs] has no [len] there and always
    asks for two tokens, which is how these three handlers call it).  What
    differs is the dispatch table built by [reset], whose keys are in
    upper case, and with it [exec], [main] and [init], which read it. *)

Module Earlier.

Definition instructionSet : gmap string (option handler) :=
  list_to_map
    [("ADD", Some h_add); ("SUB", Some h_sub); ("MOV", Some h_mov)].

Definition exec (line : string) : M unit := λ c,
  match JsString.split " " line with
  | inst :: abf1 :: _ =>
      match instructionSet !! inst with
      | None => Throw (UnknownFunction (pc c) inst) c
      | Some f =>
          let args := JsString.trim abf1 in
          if decide (args = "") then Throw (NoArguments inst (pc c)) c
          else match f with
               | Some h => (_ ← run_handler h args; incr_pc) c
               | None => Throw TypeError c
               end
      end
  | _ => Throw (NoSpace (pc c)) c
  end.

Fixpoint main (fuel : nat) (c : cpu) : option (result unit) :=
  if JsNumber.lt (JsNumber.toNumber (pc c)) (Num (pEnd c)) then
    match fuel with
    | O => None
    | S fuel' =>
        match fetch c with
        | None => Some (Throw TypeError c)
        | Some line =>
            match exec line c with
            | Ret _ c' => main fuel' c'
            | Throw e c' => Some (Throw e c')
            end
        end
    end
  else Some (Ret tt c).

Definition init (fuel : nat) (asm : string) (c : cpu) : option (result unit) :=
  match load asm c with
  | Ret _ c' => main fuel c'
  | Throw e c' => Some (Throw e c')
  end.

(** The sample program at the end of [jscpu.js]. *)
Definition source : string :=
  "MOV r0,#255" +:+ nl +:+ "MOV r1,#10" +:+ nl +:+
  "ADD r0,r1" +:+ nl +:+ "SUB #50,r1" +:+ nl.

End Earlier.

(** The opcodes of the earlier revision and their spelling in the later
    one. *)
Definition renamed_opcodes : list (string * string) :=
  [("ADD", "add"); ("SUB", "sub"); ("MOV", "mov")].

(** ** Decimal immediates *)

(** The text of a sequence of decimal digits and the integer it writes. *)
Definition decimal_string (ds : list nat) : string :=
  fold_right (λ d s, String (ascii_of_nat (48 + d)) s) EmptyString ds.

Definition decimal_value (ds : list nat) : Z :=
  fold_left (λ acc d, (10 * acc + Z.of_nat d)%Z) ds 0%Z.

(** * Properties *)

Example split_lines : JsString.split "010" ("a b" +:+ String "010" "" +:+ "" +:+ String "010" "c")
                      = ["a b"; ""; "c"].
Proof. reflexivity. Qed.
Example split_empty : JsString.split " " "" = [""].
Proof. reflexivity. Qed.
Example split_two_spaces : JsString.split " " "mov  r0,#1" = ["mov"; ""; "r0,#1"].
Proof. reflexivity. Qed.
Example trim_ex : JsString.trim "  add #1,r0 " = "add #1,r0".
Proof. reflexivity. Qed.
Example parseInt_dec : JsNumber.parseInt "255" = Num 255.
Proof. reflexivity. Qed.
Example parseInt_neg : JsNumber.parseInt "-5x" = Num (-5).
Proof. reflexivity. Qed.
Example parseInt_hex : JsNumber.parseInt "0x1f" = Num 31.
Proof. reflexivity. Qed.
Example parseInt_nan : JsNumber.parseInt "r0" = NaN.
Proof. reflexivity. Qed.

Example run_source :
  (λ r, match r with Some (Ret _ c) => Some (regs_list c) | _ => None end)
    (init 1000 source jscpu)
  = Some [("r0", Some (Num 0)); ("r1", Some (Num 5)); ("s", Some (Num 1));
          ("ovfl", Some (Num 0)); ("udfl", Some (Num 0)); ("pc", Some (Num 9))].
Proof. vm_compute. reflexivity. Qed.

(** ** Basic facts about the resolver and the register bank *)

Lemma pc_write_ne k v c : k ≠ "pc" → pc (write k v c) = pc c.
Proof. intros Hk. unfold pc, write; simpl. by rewrite lookup_insert_ne. Qed.

Lemma argToken_inv args ind len c r :
  argToken args ind len c = r →
  (∃ rv, r = Ret rv c ∧ JsString.split "," args !! ind = Some rv
         ∧ (len ≤ length (JsString.split "," args))%nat)
  ∨ r = Throw (InvalidArgCount (pc c)) c
  ∨ r = Throw TypeError c.
Proof.
  unfold argToken. intros <-.
  destruct (Nat.ltb_spec (length (JsString.split "," args)) len) as [Hlt|Hge].
  - right; by left.
  - destruct (JsString.split "," args !! ind) as [rv|] eqn:Hrv.
    + left. exists rv. done.
    + right; by right.
Qed.

Lemma getRegisterValue_inv rName c r :
  getRegisterValue rName c = r →
  (∃ v, r = Ret v c ∧ registers c !! rName = Some v)
  ∨ (r = Throw (UnknownRegister rName (pc c)) c ∧ registers c !! rName = None).
Proof.
  unfold getRegisterValue, validateRegister. intros <-.
  destruct (registers c !! rName) as [v|] eqn:Hv.
  - left. exists v. by rewrite Hv.
  - by right.
Qed.

Lemma setRegisterValue_inv rName val c r :
  setRegisterValue rName val c = r →
  (r = Ret tt (write rName val c) ∧ is_Some (registers c !! rName))
  ∨ (r = Throw (UnknownRegister rName (pc c)) c ∧ registers c !! rName = None).
Proof.
  unfold setRegisterValue, validateRegister, mbind, M_bind, modify. intros <-.
  destruct (registers c !! rName) as [v|] eqn:Hv; [left | right]; eauto.
Qed.

Lemma parseArgs_inv args ind len c r :
  parseArgs args ind len c = r →
  (∃ v, r = Ret v c)
  ∨ r = Throw (InvalidArgCount (pc c)) c
  ∨ r = Throw TypeError c
  ∨ (∃ rName, r = Throw (UnknownRegister rName (pc c)) c).
Proof.
  unfold parseArgs, mbind, M_bind. intros <-.
  destruct (argToken_inv args ind len c _ eq_refl)
    as [(rv & -> & _ & _)|[-> | ->]]; [| by right; left | by right; right; left].
  case_decide.
  - left. by eexists.
  - destruct (getRegisterValue_inv rv c _ eq_refl) as [(v & -> & _)|[-> _]].
    + left. by eexists.
    + right; right; right. by eexists.
Qed.

Ltac parse_step :=
  match goal with
  | |- context [parseArgs ?a ?i ?l ?c] =>
      destruct (parseArgs_inv a i l c _ eq_refl)
        as [[? ->] | [-> | [-> | [? ->]]]]
  | |- context [parseArgsRaw ?a ?i ?l ?c] =>
      unfold parseArgsRaw;
      destruct (argToken_inv a i l c _ eq_refl)
        as [(? & -> & _ & _) | [-> | ->]]
  | |- context [setRegisterValue ?k ?v ?c] =>
      destruct (setRegisterValue_inv k v c _ eq_refl) as [[-> _] | [-> _]]
  | |- context [getRegisterValue ?k ?c] =>
      destruct (getRegisterValue_inv k c _ eq_refl) as [(? & -> & _) | [-> _]]
  | |- context [if ?b then _ else _] => destruct b
  end.

Ltac handler_error_tac :=
  unfold handler_error; rewrite ?pc_write_ne by done; eauto 10.

Ltac throw_cases :=
  repeat (parse_step;
          try (intros [= <- <-]; split; [handler_error_tac | eauto]);
          try done).

(** [jmp] throws before it writes. *)
Lemma jmp_throw args c e c' :
  jmp args c = Throw e c' → handler_error (pc c) e ∧ c' = c.
Proof. unfold jmp, mbind, M_bind. throw_cases. Qed.

(** Where a handler throws, what it throws, and what it has written by
    then: nothing, except that [add] and [sub] may already have raised
    their flag. *)
Lemma run_handler_throw h args c e c' :
  run_handler h args c = Throw e c' →
  handler_error (pc c) e
  ∧ (c' = c
     ∨ (h = h_add ∧ c' = write "ovfl" (Num 1) c)
     ∨ (h = h_sub ∧ c' = write "udfl" (Num 1) c)).
Proof.
  destruct h; simpl; try (intros [? ->]%jmp_throw; by eauto);
    unfold add, sub, mov, cmp, jnz, jze, mbind, M_bind, mret, M_ret;
    throw_cases.
  all: intros [? ->]%jmp_throw; by eauto.
Qed.

(** ** The register bank keeps its six names *)

Lemma wf_jscpu : wf jscpu.
Proof.
  intros k. change (registers jscpu) with initial_registers.
  rewrite <- elem_of_dom. unfold initial_registers.
  rewrite dom_list_to_map_L. unfold register_names. set_solver.
Qed.

Lemma wf_reset c : wf (reset c).
Proof. exact wf_jscpu. Qed.

Lemma wf_write k v c : wf c → k ∈ register_names → wf (write k v c).
Proof.
  intros Hwf Hk k'. unfold write; simpl. rewrite lookup_insert_is_Some.
  split.
  - intros [<- | [_ H]]; [done | by apply Hwf].
  - intros H. destruct (decide (k = k')); [by left | right].
    split; [done | by apply Hwf].
Qed.

Lemma wf_is_Some c k : wf c → k ∈ register_names → is_Some (registers c !! k).
Proof. intros Hwf Hk. by apply Hwf. Qed.

Lemma register_name_not_immediate k :
  k ∈ register_names → JsString.substr01 k ≠ "#".
Proof.
  unfold register_names. rewrite !elem_of_cons, elem_of_nil.
  intros [-> | [-> | [-> | [-> | [-> | [-> | []]]]]]]; done.
Qed.

Lemma setRegisterValue_ok k v c :
  is_Some (registers c !! k) → setRegisterValue k v c = Ret tt (write k v c).
Proof.
  intros [x Hx].
  destruct (setRegisterValue_inv k v c _ eq_refl) as [[-> _] | [_ H]];
    [done | congruence].
Qed.

(** A token that names a register resolves to that register's value. *)
Lemma parseArgs_register arg ind len dr v c :
  wf c → parseArgsRaw arg ind len c = Ret dr c →
  registers c !! dr = Some v →
  parseArgs arg ind len c = Ret v c.
Proof.
  intros Hwf Hraw Hv. unfold parseArgsRaw in Hraw.
  unfold parseArgs, mbind, M_bind. rewrite Hraw.
  assert (dr ∈ register_names) as Hdr by (apply Hwf; eauto).
  apply register_name_not_immediate in Hdr.
  case_decide; [done |].
  unfold getRegisterValue, validateRegister. rewrite Hv. simpl. by rewrite Hv.
Qed.

(** ** Arithmetic and data movement *)

Lemma lookup_write k v c k' :
  registers (write k v c) !! k' = if decide (k = k') then Some v else registers c !! k'.
Proof. unfold write; simpl. apply lookup_insert. Qed.

Lemma lookup_write_eq k v c : registers (write k v c) !! k = Some v.
Proof. rewrite lookup_write. by case_decide. Qed.

Lemma lookup_write_ne k v c k' :
  k ≠ k' → registers (write k v c) !! k' = registers c !! k'.
Proof. intros. rewrite lookup_write. by case_decide. Qed.

(** What [add] does on integers, whatever the destination. *)
Lemma add_run arg dr a b c :
  wf c →
  parseArgs arg 0 2 c = Ret (Num a) c →
  parseArgsRaw arg 1 2 c = Ret dr c →
  registers c !! dr = Some (Num b) →
  add arg c =
    Ret tt (if (regSize <=? a + b)%Z
            then write dr (Num (regSize - 1)) (write "ovfl" (Num 1) c)
            else write dr (Num (a + b)) c).
Proof.
  intros Hwf Hsrc Hdr Hb.
  pose proof (parseArgs_register _ _ _ _ _ _ Hwf Hdr Hb) as Hcv.
  unfold add, mbind, M_bind. rewrite Hsrc, Hcv, Hdr. simpl.
  destruct (regSize <=? a + b)%Z; unfold mret, M_ret.
  - rewrite setRegisterValue_ok
      by (apply wf_is_Some; [done | unfold register_names; set_solver]).
    apply setRegisterValue_ok.
    rewrite lookup_write. case_decide; eauto.
  - apply setRegisterValue_ok. eauto.
Qed.

(** What [sub] does on integers, whatever the destination. *)
Lemma sub_run arg dr a b c :
  wf c →
  parseArgs arg 0 2 c = Ret (Num a) c →
  parseArgsRaw arg 1 2 c = Ret dr c →
  registers c !! dr = Some (Num b) →
  sub arg c =
    Ret tt (if (b - a <? 0)%Z
            then write dr (Num 0) (write "udfl" (Num 1) c)
            else write dr (Num (b - a)) c).
Proof.
  intros Hwf Hsrc Hdr Hb.
  pose proof (parseArgs_register _ _ _ _ _ _ Hwf Hdr Hb) as Hcv.
  unfold sub, mbind, M_bind. rewrite Hsrc, Hcv, Hdr. simpl.
  destruct (b - a <? 0)%Z; unfold mret, M_ret.
  - rewrite setRegisterValue_ok
      by (apply wf_is_Some; [done | unfold register_names; set_solver]).
    apply setRegisterValue_ok.
    rewrite lookup_write. case_decide; eauto.
  - apply setRegisterValue_ok. eauto.
Qed.

(** C2.  For non-negative integers [a] and [b] and a destination
    register that holds [b], the flag [ovfl] being a register of its own
    beside the destination: when
    [a + b >= 256], [add] stores 255 ([regSize - 1]) into the destination
    and sets [ovfl] to 1; when [a + b < 256] it stores [a + b] and leaves
    [ovfl] as it was.  No other register changes.  (However large [a] and
    [b] are, the sum the program tests is at least 256 when theirs is.) *)
Theorem add_clamps_and_flags (arg dr : string) (a b : Z) (c : cpu) :
  wf c →
  parseArgs arg 0 2 c = Ret (Num a) c →
  parseArgsRaw arg 1 2 c = Ret dr c →
  registers c !! dr = Some (Num b) →
  (0 ≤ a)%Z → (0 ≤ b)%Z →
  dr ≠ "ovfl" →
  ((256 ≤ a + b)%Z →
     ∃ c', add arg c = Ret tt c'
       ∧ registers c' !! dr = Some (Num 255)
       ∧ registers c' !! "ovfl" = Some (Num 1)
       ∧ ∀ k, k ≠ dr → k ≠ "ovfl" → registers c' !! k = registers c !! k)
  ∧ ((a + b < 256)%Z →
     ∃ c', add arg c = Ret tt c'
       ∧ registers c' !! dr = Some (Num (a + b))
       ∧ registers c' !! "ovfl" = registers c !! "ovfl"
       ∧ ∀ k, k ≠ dr → registers c' !! k = registers c !! k).
Proof.
  intros Hwf Hsrc Hdr Hb _ _ Hne.
  pose proof (add_run _ _ _ _ _ Hwf Hsrc Hdr Hb) as Hrun.
  split; intros Hsum.
  - destruct (Z.leb_spec regSize (a + b)) as [_|Hlt];
      [| unfold regSize in Hlt; lia].
    eexists; split; [exact Hrun |].
    rewrite lookup_write_eq. split; [done |].
    split.
    + rewrite lookup_write_ne by done. apply lookup_write_eq.
    + intros k Hk1 Hk2. by rewrite !lookup_write_ne.
  - destruct (Z.leb_spec regSize (a + b)) as [Hle|_];
      [unfold regSize in Hle; lia |].
    eexists; split; [exact Hrun |].
    rewrite lookup_write_eq. split; [done |].
    split; [by rewrite lookup_write_ne |].
    intros k Hk. by rewrite lookup_write_ne.
Qed.

Lemma add_clamps_and_flags_witness :
  ∃ c', add "#300,r0" jscpu = Ret tt c'
    ∧ registers c' !! "r0" = Some (Num 255)
    ∧ registers c' !! "ovfl" = Some (Num 1)
    ∧ ∀ k, k ≠ "r0" → k ≠ "ovfl" → registers c' !! k = registers jscpu !! k.
Proof.
  apply (add_clamps_and_flags "#300,r0" "r0" 300 0 jscpu);
    [apply wf_jscpu | reflexivity | reflexivity | reflexivity
    | lia | lia | done | lia].
Defined.

(** With [ovfl] itself as the destination the two writes go to one
    slot, and the later one, of the result, is the one that stays. *)
Example add_into_ovfl_run :
  (λ r, match r with Ret _ c => Some (regs_list c) | _ => None end)
    (add "#300,ovfl" jscpu)
  = Some [("r0", Some (Num 0)); ("r1", Some (Num 0)); ("s", Some (Num 0));
          ("ovfl", Some (Num 255)); ("udfl", Some (Num 0)); ("pc", Some (Num 0))].
Proof. vm_compute. reflexivity. Qed.



(** With [udfl] itself as the destination the later write, of the
    result, is the one that stays. *)
Example sub_into_udfl_run :
  (λ r, match r with Ret _ c => Some (regs_list c) | _ => None end)
    (sub "#5,udfl" jscpu)
  = Some [("r0", Some (Num 0)); ("r1", Some (Num 0)); ("s", Some (Num 0));
          ("ovfl", Some (Num 0)); ("udfl", Some (Num 0)); ("pc", Some (Num 0))].
Proof. vm_compute. reflexivity. Qed.

Lemma digitValue_decimal d :
  d < 10 → JsNumber.digitValue (ascii_of_nat (48 + d)) = Some (Z.of_nat d).
Proof.
  intros Hd. do 10 (destruct d as [|d]; [reflexivity |]). lia.
Qed.

Lemma parseDigits_decimal ds acc :
  Forall (λ d, d < 10) ds →
  JsNumber.parseDigits 10 (decimal_string ds) acc =
    match ds with
    | [] => acc
    | _ => Some (fold_left (λ acc d, (10 * acc + Z.of_nat d)%Z) ds
                   (default 0%Z acc))
    end.
Proof.
  intros Hds. revert acc. induction Hds as [|d ds Hd Hds IH]; intros acc;
    [done |].
  change (decimal_string (d :: ds))
    with (String (ascii_of_nat (48 + d)) (decimal_string ds)).
  cbn [JsNumber.parseDigits]. rewrite (digitValue_decimal d Hd).
  destruct (Z.ltb_spec (Z.of_nat d) 10) as [_|?]; [| cbv beta in Hd; lia].
  rewrite IH. by destruct ds.
Qed.

(** A decimal digit string has no white space, sign or [0x] in front. *)
Lemma parseInt_decimal_digits ds :
  ds ≠ [] → Forall (λ d, d < 10) ds →
  JsNumber.parseInt (decimal_string ds)
  = match JsNumber.parseDigits 10 (decimal_string ds) None with
    | Some n => Num (1 * n)
    | None => NaN
    end.
Proof.
  intros Hne Hds. destruct ds as [|d ds]; [done |].
  apply Forall_cons in Hds as [Hd Hds].
  change (decimal_string (d :: ds))
    with (String (ascii_of_nat (48 + d)) (decimal_string ds)).
  destruct d as [|d].
  - destruct ds as [|d' ds]; [reflexivity |].
    apply Forall_cons in Hds as [Hd' _].
    change (decimal_string (d' :: ds))
      with (String (ascii_of_nat (48 + d')) (decimal_string ds)).
    cbv beta in Hd'. do 10 (destruct d' as [|d']; [reflexivity |]). lia.
  - cbv beta in Hd. do 9 (destruct d as [|d]; [reflexivity |]). lia.
Qed.

(** [parseInt] on decimal digits gives the integer they write. *)
Lemma parseInt_decimal ds :
  ds ≠ [] → Forall (λ d, d < 10) ds →
  JsNumber.parseInt (decimal_string ds) = Num (decimal_value ds).
Proof.
  intros Hne Hds.
  rewrite parseInt_decimal_digits, parseDigits_decimal by done.
  destruct ds; [done |]. unfold decimal_value. by rewrite Z.mul_1_l.
Qed.

(** C8.  For [mov dst,value] with a valid destination, the resolved
    value is stored into the destination as it is, whatever its size, and
    no register other than the destination changes, so that [mov] leaves
    the flags [ovfl] and [udfl], registers of their own beside the
    destination, as they were.  In particular an immediate written in
    decimal digits arrives as the integer it writes, above 255 as below
    (up to 2^53, where the program reads it exactly). *)
Theorem mov_stores_verbatim (arg dr : string) (v : number) (c : cpu) :
  parseArgsRaw arg 0 2 c = Ret dr c →
  is_Some (registers c !! dr) →
  parseArgs arg 1 2 c = Ret v c →
  mov arg c = Ret tt (write dr v c)
  ∧ registers (write dr v c) !! dr = Some v
  ∧ (∀ k, k ≠ dr → registers (write dr v c) !! k = registers c !! k)
  ∧ (dr ≠ "ovfl" → registers (write dr v c) !! "ovfl" = registers c !! "ovfl")
  ∧ (dr ≠ "udfl" → registers (write dr v c) !! "udfl" = registers c !! "udfl")
  ∧ (∀ ds : list nat,
       ds ≠ [] → Forall (λ d, d < 10) ds →
       (decimal_value ds ≤ exact_bound)%Z →
       argToken arg 1 2 c = Ret ("#" +:+ decimal_string ds) c →
       v = Num (decimal_value ds)).
Proof.
  intros Hdr Hvalid Hv.
  split.
  { unfold mov, mbind, M_bind. rewrite Hdr, Hv.
    by apply setRegisterValue_ok. }
  split; [apply lookup_write_eq |].
  split; [intros; by rewrite lookup_write_ne |].
  split; [intros; by rewrite lookup_write_ne |].
  split; [intros; by rewrite lookup_write_ne |].
  intros ds Hne Hds _ Htok.
  unfold parseArgs, mbind, M_bind in Hv. rewrite Htok in Hv.
  change (JsString.substr01 ("#" +:+ decimal_string ds)) with "#" in Hv.
  change (JsString.substr1 ("#" +:+ decimal_string ds))
    with (decimal_string ds) in Hv.
  case_decide; [| done].
  rewrite (parseInt_decimal ds Hne Hds) in Hv.
  by injection Hv as <-.
Qed.

(** An immediate above 255 arrives unchanged. *)
Lemma mov_stores_verbatim_witness :
  mov "r0,#300" jscpu = Ret tt (write "r0" (Num 300) jscpu)
  ∧ registers (write "r0" (Num 300) jscpu) !! "r0" = Some (Num 300)
  ∧ Num 300 = Num (decimal_value [3; 0; 0]).
Proof.
  destruct (mov_stores_verbatim "r0,#300" "r0" (Num 300) jscpu)
    as (Hrun & Hdst & _ & _ & _ & Himm);
    [reflexivity | by eexists | reflexivity |].
  split; [exact Hrun |]. split; [exact Hdst |].
  apply Himm; [done | repeat constructor | by vm_compute | reflexivity].
Defined.

(** ** Comparison *)

(** C9.  [cmp a,b] sets [s] to 1 when the resolved values are the same
    number and to 0 otherwise ([NaN] equals nothing), and changes no other
    register and nothing else of the machine. *)
Theorem cmp_sets_status (arg : string) (fv sv : number) (c : cpu) :
  wf c →
  parseArgs arg 0 2 c = Ret fv c →
  parseArgs arg 1 2 c = Ret sv c →
  ∃ c', cmp arg c = Ret tt c'
    ∧ ((∃ x, fv = Num x ∧ sv = Num x) → registers c' !! "s" = Some (Num 1))
    ∧ ((¬ ∃ x, fv = Num x ∧ sv = Num x) → registers c' !! "s" = Some (Num 0))
    ∧ (∀ k, k ≠ "s" → registers c' !! k = registers c !! k)
    ∧ inst c' = inst c ∧ pEnd c' = pEnd c.
Proof.
  intros Hwf Hfv Hsv.
  exists (write "s" (if JsNumber.strict_eq fv sv then Num 1 else Num 0) c).
  split.
  - unfold cmp, mbind, M_bind. rewrite Hfv, Hsv.
    apply setRegisterValue_ok, wf_is_Some; [done |].
    unfold register_names; set_solver.
  - rewrite lookup_write_eq. repeat split.
    + intros (x & -> & ->). simpl. by rewrite Z.eqb_refl.
    + intros Hne. destruct fv as [x|], sv as [y|]; simpl; try done.
      destruct (Z.eqb_spec x y) as [->|]; [| done].
      exfalso. apply Hne. by exists y.
    + intros k Hk. by rewrite lookup_write_ne.
Qed.

Lemma cmp_sets_status_witness :
  ∃ c', cmp "#10,r0" (write "r0" (Num 10) jscpu) = Ret tt c'
    ∧ registers c' !! "s" = Some (Num 1).
Proof.
  destruct (cmp_sets_status "#10,r0" (Num 10) (Num 10)
              (write "r0" (Num 10) jscpu))
    as (c' & Hrun & Heq & _);
    [apply wf_write; [apply wf_jscpu | unfold register_names; set_solver]
    | reflexivity | reflexivity |].
  exists c'. split; [exact Hrun |]. apply Heq. by exists 10%Z.
Defined.

(** ** The loop and the branches *)

Lemma exec_dispatch line op a rest h c :
  JsString.split " " line = op :: a :: rest →
  instructionSet !! op = Some (Some h) →
  JsString.trim a ≠ "" →
  exec line c = (_ ← run_handler h (JsString.trim a); incr_pc) c.
Proof.
  intros Hsplit Hop Hargs. unfold exec. rewrite Hsplit, Hop.
  by case_decide.
Qed.

Lemma main_continue fuel c line :
  JsNumber.lt (JsNumber.toNumber (pc c)) (Num (pEnd c)) = true →
  fetch c = Some line →
  main (S fuel) c =
    match exec line c with
    | Ret _ c' => main fuel c'
    | Throw e c' => Some (Throw e c')
    end.
Proof. intros Hlt Hline. simpl. by rewrite Hlt, Hline. Qed.

Lemma main_halt fuel c :
  JsNumber.lt (JsNumber.toNumber (pc c)) (Num (pEnd c)) = false →
  main fuel c = Some (Ret tt c).
Proof. intros Hge. destruct fuel; simpl; by rewrite Hge. Qed.

Lemma write_write k v w c : write k w (write k v c) = write k w c.
Proof. unfold write; simpl. by rewrite insert_insert_eq. Qed.

Lemma pc_write_pc v c : pc (write "pc" v c) = Some v.
Proof. apply lookup_write_eq. Qed.

(** C4 (as amended).  A line [jmp arg] whose operand resolves to the
    integer [T]:
    with [T] out of [0 .. pEnd] the handler, and so the instruction,
    throws the out-of-bounds error and writes nothing; otherwise the
    handler sets [pc = T - 1], so the instruction as run by the loop ends
    with [pc = T], the loop goes on with the instruction at index [T],
    and for [T = pEnd] the loop stops there, without an error and without
    running anything more. *)
Theorem jmp_bounds_and_landing
    (line a : string) (rest : list string) (T : Z) (c : cpu) :
  JsString.split " " line = "jmp" :: a :: rest →
  JsString.trim a ≠ "" →
  parseArgs (JsString.trim a) 0 1 c = Ret (Num T) c →
  ((T < 0 ∨ pEnd c < T)%Z →
     jmp (JsString.trim a) c = Throw (JmpOutOfBounds (Num T)) c
     ∧ exec line c = Throw (JmpOutOfBounds (Num T)) c)
  ∧ ((0 ≤ T ≤ pEnd c)%Z →
       let c' := write "pc" (Num T) c in
       jmp (JsString.trim a) c = Ret tt (write "pc" (Num (T - 1)) c)
       ∧ exec line c = Ret tt c'
       ∧ pc c' = Some (Num T)
       ∧ fetch c' = inst c !! Z.to_nat T
       ∧ (∀ fuel,
            JsNumber.lt (JsNumber.toNumber (pc c)) (Num (pEnd c)) = true →
            fetch c = Some line →
            main (S fuel) c = main fuel c')
       ∧ (∀ fuel next,
            (T < pEnd c)%Z → inst c !! Z.to_nat T = Some next →
            main (S fuel) c' =
              match exec next c' with
              | Ret _ c'' => main fuel c''
              | Throw e c'' => Some (Throw e c'')
              end)
       ∧ (T = pEnd c → ∀ fuel, main fuel c' = Some (Ret tt c'))).
Proof.
  intros Hsplit Harg Hjd.
  assert (Hjmp : jmp (JsString.trim a) c =
            if ((T <? 0) || (pEnd c <? T))%Z
            then Throw (JmpOutOfBounds (Num T)) c
            else Ret tt (write "pc" (Num (T - 1)) c)).
  { unfold jmp, mbind, M_bind. by rewrite Hjd. }
  pose proof (exec_dispatch line "jmp" a rest h_jmp c Hsplit eq_refl Harg)
    as Hdec.
  unfold mbind, M_bind in Hdec. simpl in Hdec.
  split.
  - intros Hout.
    assert (Hthrow : jmp (JsString.trim a) c
                     = Throw (JmpOutOfBounds (Num T)) c).
    { rewrite Hjmp.
      destruct (Z.ltb_spec T 0), (Z.ltb_spec (pEnd c) T); simpl; try done; lia. }
    split; [exact Hthrow |]. by rewrite Hdec, Hthrow.
  - intros [Hlo Hhi] c'.
    assert (Hin : jmp (JsString.trim a) c
                  = Ret tt (write "pc" (Num (T - 1)) c)).
    { rewrite Hjmp.
      destruct (Z.ltb_spec T 0), (Z.ltb_spec (pEnd c) T); simpl; try done; lia. }
    assert (Hexec : exec line c = Ret tt c').
    { rewrite Hdec, Hin.
      unfold incr_pc. rewrite pc_write_pc. simpl. rewrite write_write.
      unfold c'. do 3 f_equal. lia. }
    assert (Hfetch : fetch c' = inst c !! Z.to_nat T).
    { unfold fetch, c'. rewrite pc_write_pc.
      destruct (Z.ltb_spec T 0); [lia | done]. }
    split; [exact Hin |]. split; [exact Hexec |].
    split; [apply pc_write_pc |]. split; [exact Hfetch |].
    split; [| split].
    + intros fuel Hlt Hline. by rewrite (main_continue _ _ _ Hlt Hline), Hexec.
    + intros fuel next HT Hnext. apply main_continue.
      * unfold c'. rewrite pc_write_pc. simpl.
        by apply Z.ltb_lt.
      * by rewrite Hfetch.
    + intros -> fuel. apply main_halt.
      unfold c'. rewrite pc_write_pc. simpl. apply Z.ltb_irrefl.
Qed.

Lemma jmp_bounds_and_landing_witness :
  let c := state_of (load jump_program jscpu) in
  jmp "#2" c = Ret tt (write "pc" (Num 1) c)
  ∧ exec "jmp #2" c = Ret tt (write "pc" (Num 2) c)
  ∧ fetch (write "pc" (Num 2) c) = Some "mov r1,#1".
Proof.
  intros c.
  destruct (jmp_bounds_and_landing "jmp #2" "#2" [] 2 c) as [_ H];
    [reflexivity | done | reflexivity |].
  destruct H as (Hjmp & Hexec & _ & Hfetch & _);
    [change (pEnd c) with 3%Z; lia |].
  split; [exact Hjmp |]. split; [exact Hexec |]. exact Hfetch.
Defined.

(** Jumping to [pEnd] from the last line ends the run. *)
Example jump_to_end :
  init 1 "jmp #1" jscpu
  = Some (Ret tt (write "pc" (Num 1) (state_of (load "jmp #1" jscpu)))).
Proof. vm_compute. reflexivity. Qed.

Example jump_out_of_bounds :
  init 1 "jmp #2" jscpu
  = Some (Throw (JmpOutOfBounds (Num 2)) (state_of (load "jmp #2" jscpu))).
Proof. vm_compute. reflexivity. Qed.

Example run_source_arith :
  (λ r, match r with Some (Ret _ c) => Some (regs_list c) | _ => None end)
    (init 10 source_arith jscpu)
  = Some [("r0", Some (Num 255)); ("r1", Some (Num 205)); ("s", Some (Num 0));
          ("ovfl", Some (Num 1)); ("udfl", Some (Num 0)); ("pc", Some (Num 4))].
Proof. vm_compute. reflexivity. Qed.

Example jump_program_run :
  (λ r, match r with Some (Ret _ c) => Some (regs_list c) | _ => None end)
    (init 10 jump_program jscpu)
  = Some [("r0", Some (Num 0)); ("r1", Some (Num 1)); ("s", Some (Num 0));
          ("ovfl", Some (Num 0)); ("udfl", Some (Num 0)); ("pc", Some (Num 3))].
Proof. vm_compute. reflexivity. Qed.

(** C4 as worded fails for a target that is no number.  In [jmp #x] the
    immediate resolves to [NaN], which is not within [0 .. pEnd]; both
    tests of the guard are false on it, so the instruction does not fail:
    [pc] becomes [NaN] and the loop ends at its next test, with no error
    and without running the second line. *)
Lemma jmp_nan_counterexample : ¬ jmp_as_specified.
Proof.
  intros H.
  specialize (H "jmp #x" "#x" [] NaN
                (state_of (load ("jmp #x" +:+ nl +:+ "mov r0,#1") jscpu))
                eq_refl).
  assert (Hrun : exec "jmp #x"
                   (state_of (load ("jmp #x" +:+ nl +:+ "mov r0,#1") jscpu))
                 = Throw (JmpOutOfBounds NaN)
                     (state_of (load ("jmp #x" +:+ nl +:+ "mov r0,#1") jscpu)))
    by (apply H; [done | reflexivity]).
  vm_compute in Hrun. discriminate Hrun.
Qed.

Example jmp_nan_run :
  (λ r, match r with Some (Ret _ c) => Some (regs_list c) | _ => None end)
    (init 5 ("jmp #x" +:+ nl +:+ "mov r0,#1") jscpu)
  = Some [("r0", Some (Num 0)); ("r1", Some (Num 0)); ("s", Some (Num 0));
          ("ovfl", Some (Num 0)); ("udfl", Some (Num 0)); ("pc", Some NaN)].
Proof. vm_compute. reflexivity. Qed.

(** A malformed immediate resolves to [NaN], which passes both bound
    tests; [pc] becomes [NaN] and the loop stops at its next test. *)
Lemma jmp_nan_halts arg c fuel :
  parseArgs arg 0 1 c = Ret NaN c →
  jmp arg c = Ret tt (write "pc" NaN c)
  ∧ main fuel (write "pc" NaN c) = Some (Ret tt (write "pc" NaN c)).
Proof.
  intros Hjd. split.
  - unfold jmp, mbind, M_bind. by rewrite Hjd.
  - apply main_halt. by rewrite pc_write_pc.
Qed.

(** C5.  With [s] holding [sv]: [jnz] is [jmp] when [sv] is not zero and
    does nothing when it is zero; [jze] is [jmp] when [sv] is zero and
    does nothing otherwise.  In the cases where they do nothing, the
    instruction as run by the loop changes [pc] only, to [pc + 1]. *)
Theorem jnz_jze_branch (arg : string) (sv : number) (c : cpu) :
  registers c !! "s" = Some sv →
  (sv ≠ Num 0 → jnz arg c = jmp arg c)
  ∧ (sv = Num 0 → jnz arg c = Ret tt c)
  ∧ (sv = Num 0 → jze arg c = jmp arg c)
  ∧ (sv ≠ Num 0 → jze arg c = Ret tt c)
  ∧ ∀ line op a rest p,
      JsString.split " " line = op :: a :: rest →
      JsString.trim a = arg → arg ≠ "" →
      pc c = Some (Num p) →
      (op = "jnz" ∧ sv = Num 0) ∨ (op = "jze" ∧ sv ≠ Num 0) →
      exec line c = Ret tt (write "pc" (Num (p + 1)) c)
      ∧ registers (write "pc" (Num (p + 1)) c) !! "pc" = Some (Num (p + 1))
      ∧ ∀ k, k ≠ "pc" →
             registers (write "pc" (Num (p + 1)) c) !! k = registers c !! k.
Proof.
  intros Hs.
  assert (Hget : getRegisterValue "s" c = Ret sv c).
  { unfold getRegisterValue, validateRegister. rewrite Hs. simpl.
    by rewrite Hs. }
  assert (Hz : JsNumber.strict_eq sv (Num 0) = bool_decide (sv = Num 0)).
  { destruct sv as [z|]; simpl; [| done].
    destruct (Z.eqb_spec z 0) as [->|Hne]; [done |].
    rewrite bool_decide_eq_false_2; [done | congruence]. }
  assert (Hjnz0 : sv = Num 0 → jnz arg c = Ret tt c).
  { intros Hsv. unfold jnz, mbind, M_bind. rewrite Hget, Hz.
    by rewrite bool_decide_eq_true_2. }
  assert (Hjze1 : sv ≠ Num 0 → jze arg c = Ret tt c).
  { intros Hsv. unfold jze, mbind, M_bind. rewrite Hget, Hz.
    by rewrite bool_decide_eq_false_2. }
  split; [| split; [exact Hjnz0 | split; [| split; [exact Hjze1 |]]]].
  - intros Hsv. unfold jnz, mbind, M_bind. rewrite Hget, Hz.
    by rewrite bool_decide_eq_false_2.
  - intros Hsv. unfold jze, mbind, M_bind. rewrite Hget, Hz.
    by rewrite bool_decide_eq_true_2.
  - intros line op a rest p Hsplit Ha Harg Hpc Hcase.
    split; [| split; [apply lookup_write_eq |
                      intros k Hk; by rewrite lookup_write_ne]].
    destruct Hcase as [[-> Hsv] | [-> Hsv]].
    + rewrite (exec_dispatch line "jnz" a rest h_jnz c Hsplit eq_refl)
        by (by rewrite Ha).
      rewrite Ha. unfold mbind, M_bind. simpl. rewrite (Hjnz0 Hsv).
      unfold incr_pc. by rewrite Hpc.
    + rewrite (exec_dispatch line "jze" a rest h_jze c Hsplit eq_refl)
        by (by rewrite Ha).
      rewrite Ha. unfold mbind, M_bind. simpl. rewrite (Hjze1 Hsv).
      unfold incr_pc. by rewrite Hpc.
Qed.

Lemma jnz_jze_branch_witness :
  jnz "#7" jscpu = Ret tt jscpu
  ∧ jze "#0" jscpu = jmp "#0" jscpu
  ∧ exec "jnz #7" jscpu = Ret tt (write "pc" (Num 1) jscpu).
Proof.
  split; [| split].
  - destruct (jnz_jze_branch "#7" (Num 0) jscpu) as (_ & H & _);
      [reflexivity |]. by apply H.
  - destruct (jnz_jze_branch "#0" (Num 0) jscpu) as (_ & _ & H & _);
      [reflexivity |]. by apply H.
  - destruct (jnz_jze_branch "#7" (Num 0) jscpu) as (_ & _ & _ & _ & H);
      [reflexivity |].
    destruct (H "jnz #7" "jnz" "#7" [] 0%Z) as [Hexec _];
      [reflexivity | reflexivity | done | reflexivity | by left |].
    exact Hexec.
Defined.

(** ** Decoding and failures *)

Lemma split_text (sep : ascii) (s : string) :
  JsString.split sep s =
    text_before sep s ::
      (if JsString.contains sep s
       then JsString.split sep (text_after sep s) else []).
Proof.
  induction s as [|b s IH]; simpl; [done |].
  destruct (Ascii.eqb b sep); simpl; [done |].
  rewrite IH. by destruct (JsString.contains sep s).
Qed.

Lemma text_before_no_sep (sep : ascii) (s : string) :
  JsString.contains sep (text_before sep s) = false.
Proof.
  induction s as [|b s IH]; simpl; [done |].
  destruct (Ascii.eqb b sep) eqn:Hb; simpl; [done |]. by rewrite Hb.
Qed.

Lemma text_before_after (sep : ascii) (s : string) :
  JsString.contains sep s = true →
  s = text_before sep s +:+ String sep (text_after sep s).
Proof.
  induction s as [|b s IH]; simpl; [done |].
  destruct (Ascii.eqb_spec b sep) as [->|Hne]; simpl; [done |].
  intros H. rewrite (IH H) at 1. reflexivity.
Qed.

(** The first two pieces of a line that has a space. *)
Lemma split_space line :
  JsString.contains " " line = true →
  ∃ rest, JsString.split " " line =
    text_before " " line :: text_before " " (text_after " " line) :: rest.
Proof.
  intros H. rewrite split_text, H, split_text. eauto.
Qed.

Lemma instructionSet_name op h :
  instructionSet !! op = Some (Some h) →
  op = match h with
       | h_add => "add" | h_sub => "sub" | h_mov => "mov" | h_jmp => "jmp"
       | h_cmp => "cmp" | h_jnz => "jnz" | h_jze => "jze"
       end.
Proof.
  unfold instructionSet. intros H%elem_of_list_to_map_2.
  rewrite !elem_of_cons, elem_of_nil in H.
  destruct H as [H|[H|[H|[H|[H|[H|[H|[H|[H|[]]]]]]]]]];
    by simplify_eq.
Qed.

(** A handler followed by the increment fails exactly as the handler. *)
Lemma handler_then_incr_throw h args c e c' :
  (_ ← run_handler h args; incr_pc) c = Throw e c' →
  run_handler h args c = Throw e c'.
Proof.
  unfold mbind, M_bind. destruct (run_handler h args c); [| done].
  unfold incr_pc. discriminate.
Qed.

(** C6 (as amended).  When an instruction fails with an unknown register
    or an unknown opcode, the error cites the current [pc], and the machine
    is as it was before the instruction, except that [add] may already
    have set [ovfl] to 1 and [sub] may already have set [udfl] to 1: both
    raise their flag before the destination name is checked.  An unknown
    opcode never leaves a write. *)
Theorem failed_instruction_state
    (line : string) (c : cpu) (e : error) (c' : cpu) :
  exec line c = Throw e c' →
  (∃ rName l, e = UnknownRegister rName l)
  ∨ (∃ l inst, e = UnknownFunction l inst) →
  cited_line e = Some (pc c)
  ∧ (c' = c
     ∨ (text_before " " line = "add" ∧ c' = write "ovfl" (Num 1) c)
     ∨ (text_before " " line = "sub" ∧ c' = write "udfl" (Num 1) c))
  ∧ ((∃ l inst, e = UnknownFunction l inst) → c' = c).
Proof.
  unfold exec. rewrite split_text.
  destruct (JsString.contains " " line); [rewrite split_text |].
  2: { intros [= <- <-] [(? & ? & ?) | (? & ? & ?)]; done. }
  destruct (instructionSet !! text_before " " line) as [f|] eqn:Hop.
  2: { intros [= <- <-] _. simpl. eauto. }
  case_decide as Hargs.
  { intros [= <- <-] [(? & ? & ?) | (? & ? & ?)]; done. }
  destruct f as [h|].
  2: { intros [= <- <-] [(? & ? & ?) | (? & ? & ?)]; done. }
  intros Hrun%handler_then_incr_throw Hkind.
  apply run_handler_throw in Hrun as [Herr Hstate].
  apply instructionSet_name in Hop.
  assert (Hreg : ∃ rName, e = UnknownRegister rName (pc c)).
  { destruct Herr as [-> | [-> | [Hr | [jd ->]]]];
      destruct Hkind as [(? & ? & ?) | (? & ? & ?)]; done. }
  destruct Hreg as [rName ->]. simpl.
  split; [done |]. split.
  - destruct Hstate as [-> | [[-> ->] | [-> ->]]]; eauto.
  - intros (? & ? & ?). done.
Qed.

Lemma failed_instruction_state_witness :
  exec "mov r9,#1" jscpu = Throw (UnknownRegister "r9" (Some (Num 0))) jscpu
  ∧ cited_line (UnknownRegister "r9" (Some (Num 0))) = Some (pc jscpu).
Proof.
  split; [reflexivity |].
  destruct (failed_instruction_state "mov r9,#1" jscpu
              (UnknownRegister "r9" (Some (Num 0))) jscpu)
    as [Hline _]; [reflexivity | left; by do 2 eexists |].
  exact Hline.
Defined.

(** C6 as worded fails for [add #300,#5] on a reset machine: the sum
    clamps, [ovfl] is set, and only then the destination [#5] is rejected
    as an unknown register. *)
Lemma add_flag_before_check_counterexample : ¬ failure_as_specified.
Proof.
  intros H.
  destruct (H "add #300,#5" jscpu (UnknownRegister "#5" (Some (Num 0)))
              (write "ovfl" (Num 1) jscpu)) as [_ Hregs];
    [reflexivity | left; by do 2 eexists |].
  apply (f_equal (λ m : gmap string number, m !! "ovfl")) in Hregs.
  vm_compute in Hregs. discriminate Hregs.
Qed.

(** Neither kind of decoding failure comes out of a handler. *)
Lemma handler_not_decode_failure h args c :
  is_missing_operand ((_ ← run_handler h args; incr_pc) c) = false
  ∧ is_unknown_opcode ((_ ← run_handler h args; incr_pc) c) = false.
Proof.
  destruct ((_ ← run_handler h args; incr_pc) c) as [[] c'|e c'] eqn:Hrun;
    [done |].
  apply handler_then_incr_throw, run_handler_throw in Hrun as [Herr _].
  destruct Herr as [-> | [-> | [[? ->] | [? ->]]]]; done.
Qed.

(** C7 (as amended).  The loop splits the line at its spaces: the opcode
    is the text up to the first space, the operand text is the text
    between the first and the second space (what follows a second space
    is dropped).  The instruction fails for a missing operand exactly
    when the line has no space, or the opcode is in the table and the
    operand text trims to empty; it fails for an unknown opcode exactly
    when the line has a space and the opcode is not in the table. *)
Theorem exec_decode (line : string) (c : cpu) :
  let opcode := text_before " " line in
  let operand := text_before " " (text_after " " line) in
  (JsString.split " " line !! 0%nat = Some opcode)
  ∧ (JsString.split " " line !! 1%nat =
       if JsString.contains " " line then Some operand else None)
  ∧ (is_missing_operand (exec line c) = true ↔
       JsString.contains " " line = false
       ∨ (is_Some (instructionSet !! opcode) ∧ JsString.trim operand = ""))
  ∧ (is_unknown_opcode (exec line c) = true ↔
       JsString.contains " " line = true ∧ instructionSet !! opcode = None).
Proof.
  intros opcode operand.
  split; [by rewrite split_text |].
  split.
  { rewrite split_text. destruct (JsString.contains " " line); [| done].
    by rewrite split_text. }
  unfold exec. rewrite split_text.
  destruct (JsString.contains " " line) eqn:Hsp; [rewrite split_text |].
  2: { simpl. split; split; try done; [by left | intros [? _]; done]. }
  fold opcode operand.
  destruct (instructionSet !! opcode) as [f|] eqn:Hop.
  2: { simpl. split; split; try done.
       intros [? | [[? ?] _]]; done. }
  case_decide as Hargs.
  { simpl. split; split; try done; [by right; eauto | intros [_ ?]; done]. }
  assert (Hno : ∀ r : result (), is_missing_operand r = false →
                  is_unknown_opcode r = false →
    (is_missing_operand r = true ↔
       true = false ∨ (is_Some (Some f) ∧ JsString.trim operand = ""))
    ∧ (is_unknown_opcode r = true ↔ true = true ∧ Some f = None)).
  { intros r -> ->. split; split; try done.
    - intros [? | [_ ?]]; done.
    - intros [_ ?]; done. }
  destruct f as [h|]; [| by apply Hno].
  destruct (handler_not_decode_failure h (JsString.trim operand) c).
  by apply Hno.
Qed.

(** C7 as worded fails on the line [mov  r0,#1], with two spaces: the
    text after the first space is not blank, yet the instruction fails
    for a missing operand, since the operand is the empty text between
    the two spaces.  (A line such as [xyz], without a space and with an
    unknown opcode, sets the two halves of the sentence against each
    other: the program reports the missing space.) *)
Lemma blank_between_spaces_counterexample : ¬ decode_as_specified.
Proof.
  intros H. destruct (H "mov  r0,#1" jscpu) as [[Hmissing _] _].
  destruct (Hmissing eq_refl) as [Hspace | Hblank];
    [vm_compute in Hspace; discriminate Hspace
    | vm_compute in Hblank; discriminate Hblank].
Qed.

(** Two more lines on which the wording and the program part: a blank
    operand after an unknown opcode, and a doubled space. *)
Example unknown_opcode_before_operand :
  exec "xyz " jscpu = Throw (UnknownFunction (Some (Num 0)) "xyz") jscpu.
Proof. reflexivity. Qed.

Example doubled_space :
  exec "mov  r0,#1" jscpu = Throw (NoArguments "mov" (Some (Num 0))) jscpu
  ∧ JsString.trim (text_after " " "mov  r0,#1") = "r0,#1".
Proof. split; reflexivity. Qed.

(** [cgt] and [clt] are keys of the table without a function behind. *)
Example cgt_is_not_callable : exec "cgt r0,r1" jscpu = Throw TypeError jscpu.
Proof. reflexivity. Qed.

(** ** What a run keeps *)

Lemma frame_refl c : frame c c.
Proof. by unfold frame. Qed.

Lemma frame_trans c1 c2 c3 : frame c1 c2 → frame c2 c3 → frame c1 c3.
Proof.
  intros (H1 & H2 & H3) (H4 & H5 & H6).
  split; [congruence | split; [congruence | auto]].
Qed.

Lemma frame_write k v c :
  is_Some (registers c !! k) ∨ k = "pc" → frame c (write k v c).
Proof.
  intros Hk. split; [done |]. split; [done |].
  intros Hwf. apply wf_write; [done |].
  destruct Hk as [Hk | ->]; [by apply Hwf | unfold register_names; set_solver].
Qed.

Lemma framed_bind {A B} (m : M A) (f : A → M B) :
  framed m → (∀ a, framed (f a)) → framed (m ≫= f).
Proof.
  intros Hm Hf c. unfold mbind, M_bind. specialize (Hm c).
  destruct (m c) as [a c1|e c1]; simpl in *; [| done].
  eapply frame_trans; [exact Hm | apply Hf].
Qed.

Lemma framed_ret {A} (a : A) : framed (mret a : M A).
Proof. intros c. apply frame_refl. Qed.

Lemma framed_argToken args ind len : framed (argToken args ind len).
Proof.
  intros c.
  destruct (argToken_inv args ind len c _ eq_refl)
    as [(? & -> & _) | [-> | ->]]; apply frame_refl.
Qed.

Lemma framed_getRegisterValue k : framed (getRegisterValue k).
Proof.
  intros c.
  destruct (getRegisterValue_inv k c _ eq_refl) as [(? & -> & _) | [-> _]];
    apply frame_refl.
Qed.

Lemma framed_setRegisterValue k v : framed (setRegisterValue k v).
Proof.
  intros c.
  destruct (setRegisterValue_inv k v c _ eq_refl) as [[-> ?] | [-> _]];
    [apply frame_write; by left | apply frame_refl].
Qed.

Lemma framed_parseArgs args ind len : framed (parseArgs args ind len).
Proof.
  apply framed_bind; [apply framed_argToken |].
  intros rv. case_decide; [apply framed_ret | apply framed_getRegisterValue].
Qed.

Lemma framed_jmp arg : framed (jmp arg).
Proof.
  apply framed_bind; [apply framed_parseArgs |].
  intros jd c. destruct (_ || _); simpl;
    [apply frame_refl | apply frame_write; by right].
Qed.

Create HintDb framed.
Local Hint Resolve framed_ret framed_argToken framed_getRegisterValue
  framed_setRegisterValue framed_parseArgs framed_jmp : framed.

Ltac framed_tac :=
  first
    [ solve [auto with framed]
    | apply framed_bind; [framed_tac | intros ?; framed_tac]
    | match goal with
      | |- context [if ?b then _ else _] => destruct b
      end; framed_tac ].

Lemma framed_run_handler h args : framed (run_handler h args).
Proof.
  destruct h; simpl;
    unfold add, sub, mov, cmp, jnz, jze, parseArgsRaw; framed_tac.
Qed.

Lemma framed_exec line : framed (exec line).
Proof.
  intros c. unfold exec.
  destruct (JsString.split " " line) as [|op [|a rest]];
    try apply frame_refl.
  destruct (instructionSet !! op) as [[h|]|]; try apply frame_refl;
    case_decide; try apply frame_refl.
  apply (framed_bind (run_handler h _) (λ _, incr_pc));
    [apply framed_run_handler |].
  intros _ c1. apply frame_write. by right.
Qed.

(** However a run ends, the instruction list and its recorded length
    are those it started with, and the register bank still has its six
    names. *)
Lemma main_frame fuel c r :
  main fuel c = Some r → frame c (state_of r).
Proof.
  revert c. induction fuel as [|fuel IH]; intros c; simpl;
    destruct (JsNumber.lt _ _); try done;
    try (intros [= <-]; apply frame_refl).
  destruct (fetch c) as [line|]; [| intros [= <-]; apply frame_refl].
  pose proof (framed_exec line c) as Hexec.
  destruct (exec line c) as [[] c1|e c1]; simpl in Hexec.
  - intros Hrun. eapply frame_trans; [exact Hexec | by apply IH].
  - by intros [= <-].
Qed.

(** ** Loading *)

Lemma split_length (sep : ascii) (s : string) :
  (1 ≤ length (JsString.split sep s))%nat.
Proof. rewrite split_text. simpl. lia. Qed.

(** The guard of [init] never fires: a split string has a piece. *)
Lemma load_appends asm c :
  load asm c =
    Ret tt {| inst := inst c ++ program_lines asm;
              pEnd := Z.of_nat (length (inst c ++ program_lines asm));
              registers := initial_registers |}.
Proof.
  unfold load.
  destruct (Nat.ltb_spec (length (JsString.split "010" asm)) 1) as [Hlt|_];
    [| done].
  pose proof (split_length "010" asm). lia.
Qed.

Lemma program_lines_blank asm : all_blank asm → program_lines asm = [].
Proof.
  unfold all_blank, program_lines.
  induction (JsString.split "010" asm) as [|l ls IH]; [done |].
  intros [Hl Hls]%Forall_cons. rewrite fmap_cons, filter_cons.
  case_decide; [done | by apply IH].
Qed.

(** Every state a load and run ends in has a register bank with the six
    names, so the well-formedness the handler theorems ask for holds
    wherever the loop calls them. *)
Lemma init_wf fuel asm c r : init fuel asm c = Some r → wf (state_of r).
Proof.
  unfold init. rewrite load_appends.
  intros (_ & _ & Hwf)%main_frame. apply Hwf. exact wf_jscpu.
Qed.

(** C1 (what the program does).  On a fresh machine, a source whose
    lines are all blank loads without an error: the guard of [init] tests
    the number of pieces of the split, which is never zero, and nothing
    tests the number of lines kept.  The run then ends at once, with the
    registers as reset, whatever the fuel. *)
Theorem blank_source_loads_and_halts (asm : string) (fuel : nat) :
  all_blank asm →
  load asm jscpu = Ret tt jscpu
  ∧ init fuel asm jscpu = Some (Ret tt jscpu).
Proof.
  intros Hblank.
  assert (Hload : load asm jscpu = Ret tt jscpu).
  { rewrite load_appends, (program_lines_blank _ Hblank). done. }
  split; [exact Hload |].
  unfold init. rewrite Hload. by apply main_halt.
Qed.

Lemma blank_source_loads_and_halts_witness :
  init 0 "" jscpu = Some (Ret tt jscpu).
Proof.
  destruct (blank_source_loads_and_halts "" 0) as [_ H]; [| exact H].
  by repeat constructor.
Defined.

Example blank_lines_load :
  init 0 ("  " +:+ nl +:+ nl +:+ String "009" "") jscpu = Some (Ret tt jscpu).
Proof. vm_compute. reflexivity. Qed.

(** C10.  A second load on the same machine: after a first load and run
    of [asm1], however it ended, loading [asm2] resets the registers and
    appends the lines of [asm2] to those of [asm1].  [pEnd] counts both,
    [pc] is 0, and the run that follows starts with the first line of the
    combined list, that is of the old program when it had a line. *)
Theorem second_load_appends
    (asm1 asm2 : string) (fuel : nat) (r1 : result unit) :
  init fuel asm1 jscpu = Some r1 →
  let c1 := state_of r1 in
  inst c1 = program_lines asm1
  ∧ inst (reset c1) = inst c1
  ∧ ∃ c2, load asm2 c1 = Ret tt c2
      ∧ inst c2 = program_lines asm1 ++ program_lines asm2
      ∧ pEnd c2 = Z.of_nat (length (program_lines asm1)
                            + length (program_lines asm2))
      ∧ registers c2 = initial_registers
      ∧ pc c2 = Some (Num 0)
      ∧ fetch c2 = head (program_lines asm1 ++ program_lines asm2)
      ∧ (∀ old olds, program_lines asm1 = old :: olds → fetch c2 = Some old)
      ∧ ∀ fuel', init fuel' asm2 c1 = main fuel' c2.
Proof.
  intros Hinit c1.
  assert (Hinst : inst c1 = program_lines asm1).
  { unfold init in Hinit. rewrite load_appends in Hinit.
    apply main_frame in Hinit as [Hi _]. exact Hi. }
  split; [exact Hinst |]. split; [done |].
  eexists. split; [apply load_appends |]. simpl. rewrite Hinst.
  split; [done |]. split; [by rewrite length_app, Nat2Z.inj_add |].
  split; [done |]. split; [done |].
  assert (Hfetch : ∀ l : list string,
            fetch {| inst := l; pEnd := Z.of_nat (length l);
                     registers := initial_registers |} = head l).
  { intros l. unfold fetch. simpl. by destruct l. }
  split; [apply Hfetch |].
  split; [intros old olds Hold; by rewrite Hfetch, Hold |].
  intros fuel'. unfold init. by rewrite load_appends, Hinst.
Qed.

Lemma second_load_appends_witness :
  ∃ c2, load "mov r1,#2" after_first_run = Ret tt c2
    ∧ inst c2 = ["mov r0,#1"; "mov r1,#2"]
    ∧ pEnd c2 = 2%Z
    ∧ fetch c2 = Some "mov r0,#1".
Proof.
  unfold after_first_run.
  destruct (init 5 "mov r0,#1" jscpu) as [r1|] eqn:Hinit;
    [| by vm_compute in Hinit].
  destruct (second_load_appends "mov r0,#1" "mov r1,#2" 5 r1 Hinit)
    as (_ & _ & c2 & Hload & Hinst & HpEnd & _ & _ & Hfetch & _).
  exists c2. split; [exact Hload |]. split; [exact Hinst |].
  split; [exact HpEnd |]. exact Hfetch.
Defined.

(** The second run executes the old line again before the new one. *)
Example second_run_reruns_old_program :
  (λ r, match r with
        | Some (Ret _ c) => Some (inst c, regs_list c)
        | _ => None
        end)
    (init 5 "mov r1,#2" after_first_run)
  = Some (["mov r0,#1"; "mov r1,#2"],
          [("r0", Some (Num 1)); ("r1", Some (Num 2)); ("s", Some (Num 0));
           ("ovfl", Some (Num 0)); ("udfl", Some (Num 0)); ("pc", Some (Num 2))]).
Proof. vm_compute. reflexivity. Qed.

(** * Further properties of the program *)

(** ** Register bank *)

(** X1.  Writing a known register and reading it back gives the value
    written, and reading any other known register gives what it held
    before the write. *)
Theorem set_then_get (k : string) (v : number) (c : cpu) :
  is_Some (registers c !! k) →
  (setRegisterValue k v ≫= λ _, getRegisterValue k) c = Ret v (write k v c)
  ∧ ∀ k' v', k' ≠ k → registers c !! k' = Some v' →
      (setRegisterValue k v ≫= λ _, getRegisterValue k') c
      = Ret v' (write k v c).
Proof.
  intros Hk. unfold mbind, M_bind. rewrite (setRegisterValue_ok _ _ _ Hk).
  cbv beta iota. split.
  - unfold getRegisterValue, validateRegister.
    rewrite lookup_write_eq. cbv beta iota. by rewrite lookup_write_eq.
  - intros k' v' Hne Hv'. unfold getRegisterValue, validateRegister.
    rewrite lookup_write_ne, Hv' by done. cbv beta iota.
    by rewrite lookup_write_ne, Hv'.
Qed.

Lemma set_then_get_witness :
  (setRegisterValue "r1" (Num 42) ≫= λ _, getRegisterValue "r1") jscpu
  = Ret (Num 42) (write "r1" (Num 42) jscpu).
Proof.
  destruct (set_then_get "r1" (Num 42) jscpu) as [H _]; [by eexists |].
  exact H.
Defined.

(** X2.  A name outside the six registers is refused by both the read
    and the write, with the unknown-register error citing the current
    [pc], and the machine is left as it was: no register can be added. *)
Theorem unknown_register_rejected (k : string) (v : number) (c : cpu) :
  wf c → k ∉ register_names →
  getRegisterValue k c = Throw (UnknownRegister k (pc c)) c
  ∧ setRegisterValue k v c = Throw (UnknownRegister k (pc c)) c.
Proof.
  intros Hwf Hk.
  assert (Hnone : registers c !! k = None).
  { apply eq_None_not_Some. intros H. by apply Hk, Hwf. }
  split.
  - destruct (getRegisterValue_inv k c _ eq_refl) as [(x & _ & Hx) | [-> _]];
      [congruence | done].
  - destruct (setRegisterValue_inv k v c _ eq_refl) as [[_ [x Hx]] | [-> _]];
      [congruence | done].
Qed.

Lemma unknown_register_rejected_witness :
  setRegisterValue "r2" (Num 1) jscpu
  = Throw (UnknownRegister "r2" (Some (Num 0))) jscpu.
Proof.
  destruct (unknown_register_rejected "r2" (Num 1) jscpu) as [_ H];
    [apply wf_jscpu | | exact H].
  unfold register_names. rewrite !elem_of_cons, elem_of_nil.
  intros [H | [H | [H | [H | [H | [H | []]]]]]]; discriminate H.
Defined.

(** ** Argument resolver *)

Lemma split_no_sep (sep : ascii) (s : string) :
  JsString.contains sep s = false → JsString.split sep s = [s].
Proof.
  induction s as [|b s IH]; simpl; [done |].
  destruct (Ascii.eqb b sep); simpl; [done |].
  intros H. by rewrite (IH H).
Qed.

(** X3.  An instruction of [add], [sub], [mov] or [cmp] whose operand
    text has no comma fails with the arity error citing the current [pc],
    before anything is read or written. *)
Theorem two_operands_required
    (line op a : string) (rest : list string) (h : handler) (c : cpu) :
  JsString.split " " line = op :: a :: rest →
  instructionSet !! op = Some (Some h) →
  h = h_add ∨ h = h_sub ∨ h = h_mov ∨ h = h_cmp →
  JsString.trim a ≠ "" →
  JsString.contains "," (JsString.trim a) = false →
  exec line c = Throw (InvalidArgCount (pc c)) c.
Proof.
  intros Hsplit Hop Hh Hargs Hcomma.
  rewrite (exec_dispatch _ _ _ _ _ _ Hsplit Hop Hargs).
  assert (Htok : ∀ ind, argToken (JsString.trim a) ind 2 c
                        = Throw (InvalidArgCount (pc c)) c).
  { intros ind. unfold argToken. by rewrite (split_no_sep _ _ Hcomma). }
  unfold mbind, M_bind.
  destruct Hh as [-> | [-> | [-> | ->]]]; simpl;
    unfold add, sub, mov, cmp, parseArgs, parseArgsRaw, mbind, M_bind;
    by rewrite Htok.
Qed.

Lemma two_operands_required_witness :
  exec "add #1" jscpu = Throw (InvalidArgCount (Some (Num 0))) jscpu.
Proof.
  apply (two_operands_required "add #1" "add" "#1" [] h_add jscpu);
    [reflexivity | reflexivity | by left | done | reflexivity].
Defined.

(** X4.  [jmp] resolves the first comma-separated token of its operand
    text and ignores the others. *)
Theorem jmp_first_token_only (arg : string) (c : cpu) :
  jmp arg c = jmp (text_before "," arg) c.
Proof.
  assert (Htok : argToken arg 0 1 c = argToken (text_before "," arg) 0 1 c).
  { unfold argToken.
    rewrite (split_no_sep "," (text_before "," arg))
      by apply text_before_no_sep.
    rewrite (split_text "," arg). simpl. done. }
  unfold jmp, parseArgs, mbind, M_bind. by rewrite Htok.
Qed.

(** ** Handlers *)

Lemma jmp_ret args c c' :
  jmp args c = Ret tt c' → ∃ T, c' = write "pc" T c.
Proof.
  unfold jmp, mbind, M_bind.
  destruct (parseArgs_inv args 0 1 c _ eq_refl)
    as [[jd ->] | [-> | [-> | [? ->]]]]; try done.
  destruct (_ || _); [done |]. intros [= <-]. eauto.
Qed.

(** X5.  The three branch instructions touch nothing but [pc]: however
    [jmp], [jnz] or [jze] ends, every other register, the instruction
    list and its length are as before, and when it throws [pc] is
    untouched too. *)
Theorem branches_touch_only_pc (h : handler) (args : string) (c : cpu) :
  h = h_jmp ∨ h = h_jnz ∨ h = h_jze →
  (∀ k, k ≠ "pc" →
        registers (state_of (run_handler h args c)) !! k = registers c !! k)
  ∧ inst (state_of (run_handler h args c)) = inst c
  ∧ pEnd (state_of (run_handler h args c)) = pEnd c
  ∧ ∀ e c', run_handler h args c = Throw e c' → c' = c.
Proof.
  intros Hh.
  assert (Hjmp : ∀ r, jmp args c = r →
            r = Ret tt c ∨ (∃ T, r = Ret tt (write "pc" T c))
            ∨ ∃ e, r = Throw e c).
  { intros [[] c'|e c'] Hr.
    - right; left. apply jmp_ret in Hr as [T ->]. eauto.
    - right; right. apply jmp_throw in Hr as [_ ->]. eauto. }
  assert (Hrun : ∀ r, run_handler h args c = r →
            r = Ret tt c ∨ (∃ T, r = Ret tt (write "pc" T c))
            ∨ ∃ e, r = Throw e c).
  { destruct Hh as [-> | [-> | ->]]; simpl; [exact Hjmp | |];
      intros r <-; unfold jnz, jze, mbind, M_bind;
      (destruct (getRegisterValue_inv "s" c _ eq_refl)
         as [(sv & -> & _) | [-> _]]; [| by eauto]);
      match goal with
      | |- context [if ?b then _ else _] => destruct b
      end; try (by left); by apply Hjmp. }
  destruct (Hrun _ eq_refl) as [Hr | [[T Hr] | [e0 Hr]]]; rewrite Hr; simpl.
  - repeat split; done.
  - repeat split; try done. intros k Hk. by rewrite lookup_insert_ne.
  - repeat split; try done. by intros e' c' [= _ <-].
Qed.

Lemma branches_touch_only_pc_witness :
  registers (state_of (run_handler h_jze "#0" jscpu)) !! "r0"
  = registers jscpu !! "r0"
  ∧ inst (state_of (run_handler h_jze "#0" jscpu)) = inst jscpu.
Proof.
  destruct (branches_touch_only_pc h_jze "#0" jscpu) as (H & Hinst & _);
    [by right; right |].
  split; [by apply H | exact Hinst].
Defined.

(** X6.  [add] clamps at the top only and [sub] at the bottom only: a
    negative sum is stored as it is by [add], and a difference of 256 or
    more is stored as it is by [sub], in both cases without a flag being
    written.  The operands and the result are taken within 2^53 of zero,
    where the program's sum and difference are exact. *)
Theorem add_sub_clamp_one_side (arg dr : string) (a b : Z) (c : cpu) :
  wf c →
  parseArgs arg 0 2 c = Ret (Num a) c →
  parseArgsRaw arg 1 2 c = Ret dr c →
  registers c !! dr = Some (Num b) →
  (- exact_bound ≤ a ≤ exact_bound)%Z →
  (- exact_bound ≤ b ≤ exact_bound)%Z →
  ((a + b < 0)%Z → (- exact_bound ≤ a + b)%Z →
     add arg c = Ret tt (write dr (Num (a + b)) c))
  ∧ ((256 ≤ b - a)%Z → (b - a ≤ exact_bound)%Z →
     sub arg c = Ret tt (write dr (Num (b - a)) c)).
Proof.
  intros Hwf Hsrc Hdr Hb _ _. split; intros H _.
  - rewrite (add_run _ _ _ _ _ Hwf Hsrc Hdr Hb).
    destruct (Z.leb_spec regSize (a + b)) as [Hle|_]; [| done].
    unfold regSize in Hle. lia.
  - rewrite (sub_run _ _ _ _ _ Hwf Hsrc Hdr Hb).
    destruct (Z.ltb_spec (b - a) 0) as [Hlt|_]; [lia | done].
Qed.

Lemma add_sub_clamp_one_side_witness :
  add "#-5,r0" jscpu = Ret tt (write "r0" (Num (-5)) jscpu)
  ∧ sub "#-300,r0" jscpu = Ret tt (write "r0" (Num 300) jscpu).
Proof.
  split.
  - destruct (add_sub_clamp_one_side "#-5,r0" "r0" (-5) 0 jscpu) as [H _];
      [apply wf_jscpu | reflexivity | reflexivity | reflexivity
      | unfold exact_bound; lia | unfold exact_bound; lia |].
    apply H; unfold exact_bound; lia.
  - destruct (add_sub_clamp_one_side "#-300,r0" "r0" (-300) 0 jscpu)
      as [_ H];
      [apply wf_jscpu | reflexivity | reflexivity | reflexivity
      | unfold exact_bound; lia | unfold exact_bound; lia |].
    apply H; unfold exact_bound; lia.
Defined.

(** X7.  When either operand of [add] or [sub] resolves to [NaN] (a
    malformed immediate, or a register that holds [NaN]), the destination
    receives [NaN] and neither flag is written. *)
Theorem arithmetic_on_nan (arg dr : string) (x y : number) (c : cpu) :
  parseArgs arg 0 2 c = Ret x c →
  parseArgs arg 1 2 c = Ret y c →
  parseArgsRaw arg 1 2 c = Ret dr c →
  is_Some (registers c !! dr) →
  x = NaN ∨ y = NaN →
  add arg c = Ret tt (write dr NaN c)
  ∧ sub arg c = Ret tt (write dr NaN c).
Proof.
  intros Hx Hy Hdr Hvalid Hnan.
  assert (JsNumber.add x y = NaN ∧ JsNumber.sub y x = NaN) as [Ha Hs].
  { destruct x, y, Hnan; done. }
  split.
  - unfold add, mbind, M_bind. rewrite Hx, Hy, Hdr.
    unfold JsNumber.floor. rewrite Ha. simpl.
    by apply setRegisterValue_ok.
  - unfold sub, mbind, M_bind. rewrite Hx, Hy, Hdr.
    unfold JsNumber.floor. rewrite Hs. simpl.
    by apply setRegisterValue_ok.
Qed.

Lemma arithmetic_on_nan_witness :
  add "#x,r0" jscpu = Ret tt (write "r0" NaN jscpu).
Proof.
  destruct (arithmetic_on_nan "#x,r0" "r0" NaN (Num 0) jscpu) as [H _];
    [reflexivity | reflexivity | reflexivity | by eexists | by left |].
  exact H.
Defined.

(** X8.  [cgt] and [clt] pass the opcode check, since they are keys of
    the dispatch table, but no function stands behind them: with any
    operand text that is not blank the instruction ends in the runtime's
    [TypeError], and nothing is written. *)
Theorem cgt_clt_not_callable
    (line op a : string) (rest : list string) (c : cpu) :
  JsString.split " " line = op :: a :: rest →
  op = "cgt" ∨ op = "clt" →
  JsString.trim a ≠ "" →
  exec line c = Throw TypeError c.
Proof.
  intros Hsplit Hop Hargs. unfold exec. rewrite Hsplit.
  destruct Hop as [-> | ->];
    (replace (instructionSet !! _) with (Some (@None handler))
       by reflexivity);
    by case_decide.
Qed.

Lemma cgt_clt_not_callable_witness :
  exec "clt r0,r1" jscpu = Throw TypeError jscpu.
Proof.
  apply (cgt_clt_not_callable "clt r0,r1" "clt" "r0,r1" [] jscpu);
    [reflexivity | by right | done].
Defined.

(** ** The loop *)

(** Where an instruction throws, the machine is as before, up to the flag
    that [add] or [sub] may have raised. *)
Lemma exec_throw_state line c e c' :
  exec line c = Throw e c' →
  c' = c ∨ c' = write "ovfl" (Num 1) c ∨ c' = write "udfl" (Num 1) c.
Proof.
  unfold exec.
  destruct (JsString.split " " line) as [|op [|a rest]];
    try (intros [= _ <-]; by left).
  destruct (instructionSet !! op) as [[h|]|];
    try case_decide; try (intros [= _ <-]; by left).
  intros Hrun%handler_then_incr_throw.
  apply run_handler_throw in Hrun as [_ [-> | [[_ ->] | [_ ->]]]]; eauto.
Qed.

Lemma exec_throw_pc line c e c' :
  exec line c = Throw e c' →
  pc c' = pc c ∧ inst c' = inst c ∧ pEnd c' = pEnd c.
Proof.
  intros [-> | [-> | ->]]%exec_throw_state; [done | |];
    by rewrite pc_write_ne.
Qed.

(** X9.  The loop tests [pc] against [pEnd] only: with a negative [pc]
    it goes on, finds no line at that index, and the call of [exec] on the
    missing line ends the run with the runtime's [TypeError]. *)
Theorem negative_pc_is_a_type_error (fuel : nat) (z : Z) (c : cpu) :
  pc c = Some (Num z) → (z < 0)%Z → (0 ≤ pEnd c)%Z →
  main (S fuel) c = Some (Throw TypeError c).
Proof.
  intros Hpc Hz HpEnd. simpl. unfold fetch. rewrite Hpc. simpl.
  destruct (Z.ltb_spec z (pEnd c)); [| lia].
  by destruct (Z.ltb_spec z 0); [| lia].
Qed.

Lemma negative_pc_is_a_type_error_witness :
  main 1 (write "pc" (Num (-2)) jscpu)
  = Some (Throw TypeError (write "pc" (Num (-2)) jscpu)).
Proof.
  apply (negative_pc_is_a_type_error 0 (-2)); [reflexivity | lia | simpl; lia].
Defined.

(** X10.  [mov] into [pc] is a jump without the bounds test of [jmp]:
    for every integer [T], within the instruction list or not, the
    instruction succeeds and leaves [pc = T + 1].  [T] is taken within
    2^53 of zero, where the program's increment is exact. *)
Theorem mov_pc_is_unchecked_jump
    (line a : string) (rest : list string) (T : Z) (c : cpu) :
  JsString.split " " line = "mov" :: a :: rest →
  JsString.trim a ≠ "" →
  parseArgsRaw (JsString.trim a) 0 2 c = Ret "pc" c →
  parseArgs (JsString.trim a) 1 2 c = Ret (Num T) c →
  is_Some (registers c !! "pc") →
  (- exact_bound ≤ T < exact_bound)%Z →
  exec line c = Ret tt (write "pc" (Num (T + 1)) c).
Proof.
  intros Hsplit Hargs Hdr Hv Hpc _.
  rewrite (exec_dispatch line "mov" a rest h_mov c Hsplit eq_refl Hargs).
  unfold mbind, M_bind. simpl.
  unfold mov, mbind, M_bind. rewrite Hdr, Hv.
  rewrite (setRegisterValue_ok _ _ _ Hpc).
  unfold incr_pc. rewrite pc_write_pc. simpl. by rewrite write_write.
Qed.

Lemma mov_pc_is_unchecked_jump_witness :
  exec "mov pc,#-3" jscpu = Ret tt (write "pc" (Num (-2)) jscpu).
Proof.
  apply (mov_pc_is_unchecked_jump "mov pc,#-3" "pc,#-3" [] (-3) jscpu);
    [reflexivity | done | reflexivity | reflexivity | by eexists
    | unfold exact_bound; lia].
Defined.

(** X11.  When a run returns normally, [pc] is not below [pEnd]: the
    loop has no other way out. *)
Theorem normal_exit_pc (fuel : nat) (c c' : cpu) :
  main fuel c = Some (Ret tt c') →
  JsNumber.lt (JsNumber.toNumber (pc c')) (Num (pEnd c')) = false.
Proof.
  revert c. induction fuel as [|fuel IH]; intros c; simpl;
    destruct (JsNumber.lt (JsNumber.toNumber (pc c)) (Num (pEnd c))) eqn:Hlt;
    try done; try (by intros [= <-]).
  destruct (fetch c) as [line|]; [| done].
  destruct (exec line c) as [[] c1|e c1]; [apply IH | done].
Qed.

Lemma normal_exit_pc_witness :
  JsNumber.lt (JsNumber.toNumber (pc after_first_run))
              (Num (pEnd after_first_run)) = false.
Proof.
  apply (normal_exit_pc 5 (state_of (load "mov r0,#1" jscpu))).
  vm_compute. reflexivity.
Defined.

(** X12.  When a run ends in an error, [pc] is still below [pEnd] and
    still the index of the instruction that failed: either no line is
    stored at that index and the error is the [TypeError], or the line
    stored there is the one whose execution threw the error. *)
Theorem failed_run_pc (fuel : nat) (c c' : cpu) (e : error) :
  main fuel c = Some (Throw e c') →
  JsNumber.lt (JsNumber.toNumber (pc c')) (Num (pEnd c')) = true
  ∧ match fetch c' with
    | None => e = TypeError
    | Some line => ∃ c0, fetch c0 = Some line ∧ pc c0 = pc c'
                         ∧ exec line c0 = Throw e c'
    end.
Proof.
  revert c. induction fuel as [|fuel IH]; intros c; simpl;
    destruct (JsNumber.lt (JsNumber.toNumber (pc c)) (Num (pEnd c))) eqn:Hlt;
    try done.
  destruct (fetch c) as [line|] eqn:Hline.
  - destruct (exec line c) as [[] c1|e1 c1] eqn:Hexec; [apply IH |].
    intros [= -> ->].
    destruct (exec_throw_pc _ _ _ _ Hexec) as (Hpc & Hinst & HpEnd).
    split; [by rewrite Hpc, HpEnd |].
    assert (Hfetch : fetch c' = Some line).
    { unfold fetch in *. by rewrite Hpc, Hinst. }
    rewrite Hfetch. exists c. done.
  - intros [= <- <-]. split; [done |]. by rewrite Hline.
Qed.

Lemma failed_run_pc_witness :
  let c := state_of (load ("mov r0,#1" +:+ nl +:+ "bad r0") jscpu) in
  JsNumber.lt (JsNumber.toNumber (pc (write "pc" (Num 1) (write "r0" (Num 1) c))))
              (Num (pEnd c)) = true.
Proof.
  intros c.
  destruct (failed_run_pc 5 c (write "pc" (Num 1) (write "r0" (Num 1) c))
              (UnknownFunction (Some (Num 1)) "bad")) as [H _];
    [vm_compute; reflexivity | exact H].
Defined.

(** X13.  However a run ends, the instruction list and its recorded
    length are those it started with, and a register bank that had
    exactly the six names still has exactly them. *)
Theorem run_keeps_program_and_names (fuel : nat) (c : cpu) (r : result unit) :
  main fuel c = Some r →
  inst (state_of r) = inst c
  ∧ pEnd (state_of r) = pEnd c
  ∧ (wf c → wf (state_of r)).
Proof. apply main_frame. Qed.

Lemma run_keeps_program_and_names_witness :
  inst after_first_run = ["mov r0,#1"] ∧ wf after_first_run.
Proof.
  destruct (run_keeps_program_and_names 5 (state_of (load "mov r0,#1" jscpu))
              (Ret tt after_first_run)) as (Hinst & _ & Hwf);
    [vm_compute; reflexivity |].
  split; [exact Hinst | apply Hwf, wf_jscpu].
Defined.

(** ** Termination *)

(** A handler that succeeds leaves [pc] alone unless it is a branch or
    [pc] is the register it is told to write. *)
Lemma handler_keeps_pc h args c c' :
  run_handler h args c = Ret tt c' →
  match h with
  | h_mov => JsString.split "," args !! 0%nat ≠ Some "pc"
  | h_add | h_sub => JsString.split "," args !! 1%nat ≠ Some "pc"
  | h_cmp => True
  | h_jmp | h_jnz | h_jze => False
  end →
  pc c' = pc c.
Proof.
  destruct h; simpl; try done;
    unfold add, sub, mov, cmp, parseArgsRaw, mbind, M_bind, mret, M_ret.
  all: repeat
    match goal with
    | |- context [parseArgs ?a ?i ?l ?c] =>
        destruct (parseArgs_inv a i l c _ eq_refl)
          as [[? ->] | [-> | [-> | [? ->]]]]; try done
    | |- context [argToken ?a ?i ?l ?c] =>
        destruct (argToken_inv a i l c _ eq_refl)
          as [(? & -> & ? & _) | [-> | ->]]; try done
    | |- context [if ?b then _ else _] => destruct b
    | |- context [setRegisterValue ?k ?v ?c] =>
        destruct (setRegisterValue_inv k v c _ eq_refl)
          as [[-> _] | [-> _]]; try done
    end.
  all: intros [= <-] Hne; rewrite ?pc_write_ne; try done;
    intros Heq; subst; contradiction.
Qed.

(** A straight line that succeeds moves [pc] to the next index. *)
Lemma straight_step line c c' p :
  straight line → pc c = Some (Num p) →
  exec line c = Ret tt c' → pc c' = Some (Num (p + 1)).
Proof.
  intros [Hbr Hdst] Hpc. unfold straight, is_branch, destination in *.
  unfold exec. rewrite split_text in *.
  destruct (JsString.contains " " line); [| done].
  rewrite split_text in *.
  set (op := text_before " " line) in *.
  set (a := text_before " " (text_after " " line)) in *.
  destruct (decide (JsString.trim a = "")) as [|Hargs];
    [by destruct (instructionSet !! op) |].
  destruct (instructionSet !! op) as [[h|]|] eqn:Hop; [| done | done].
  apply instructionSet_name in Hop.
  unfold mbind, M_bind.
  destruct (run_handler h (JsString.trim a) c) as [[] c1|] eqn:Hrun; [| done].
  unfold incr_pc. intros [= <-].
  rewrite pc_write_pc. f_equal.
  rewrite (handler_keeps_pc _ _ _ _ Hrun), Hpc; [done |].
  apply bool_decide_eq_false in Hbr.
  destruct h; rewrite Hop in *; simpl in *; try done;
    try (exfalso; apply Hbr; set_solver).
Qed.

Lemma straight_line_run (n : nat) (c : cpu) (p : Z) :
  Forall straight (inst c) →
  pEnd c = Z.of_nat (length (inst c)) →
  pc c = Some (Num p) → (0 ≤ p)%Z →
  n = Z.to_nat (pEnd c - p) → (p ≤ pEnd c)%Z →
  ∃ r, main n c = Some r
       ∧ ∀ c', r = Ret tt c' → pc c' = Some (Num (pEnd c)).
Proof.
  revert c p. induction n as [|n IH]; intros c p Hall Hlen Hpc Hp Hn Hle.
  - assert (p = pEnd c) as -> by lia.
    exists (Ret tt c). split.
    + apply main_halt. rewrite Hpc. simpl. apply Z.ltb_irrefl.
    + by intros c' [= <-].
  - assert (Hlt : (p < pEnd c)%Z) by lia.
    assert (is_Some (inst c !! Z.to_nat p)) as [line Hline].
    { apply lookup_lt_is_Some. lia. }
    assert (Hfetch : fetch c = Some line).
    { unfold fetch. rewrite Hpc. by destruct (Z.ltb_spec p 0); [lia |]. }
    rewrite (main_continue n c line); [| | done].
    2: { rewrite Hpc. simpl. by apply Z.ltb_lt. }
    assert (Hstraight : straight line).
    { eapply Forall_lookup_1; eauto. }
    pose proof (framed_exec line c) as (Hinst & HpEnd & _).
    destruct (exec line c) as [[] c1|e c1] eqn:Hexec; simpl in *.
    + pose proof (straight_step _ _ _ _ Hstraight Hpc Hexec) as Hpc1.
      destruct (IH c1 (p + 1)%Z) as (r & Hr & Hend); try done; try lia.
      * by rewrite Hinst.
      * by rewrite Hinst, HpEnd.
      * exists r. split; [done |]. by rewrite <- HpEnd.
    + exists (Throw e c1). split; [done |]. by intros c' [=].
Qed.

(** X14.  A program in which no line is a branch and no line names [pc]
    as its destination always ends, normally or with an error, within
    as many instructions as it has lines; when it ends normally, [pc] is
    the number of lines. *)
Theorem straight_program_halts (asm : string) :
  Forall straight (program_lines asm) →
  ∃ r, init (length (program_lines asm)) asm jscpu = Some r
       ∧ ∀ c', r = Ret tt c' →
               pc c' = Some (Num (Z.of_nat (length (program_lines asm)))).
Proof.
  intros Hall. unfold init. rewrite load_appends. simpl.
  exact (straight_line_run (length (program_lines asm))
           (Cpu (program_lines asm)
                (Z.of_nat (length (program_lines asm))) initial_registers)
           0%Z Hall eq_refl eq_refl (Z.le_refl 0)
           (eq_sym (eq_trans (f_equal Z.to_nat (Z.sub_0_r _)) (Nat2Z.id _)))
           (Nat2Z.is_nonneg _)).
Qed.

Lemma straight_program_halts_witness :
  ∃ r, init 4 source_arith jscpu = Some r
       ∧ ∀ c', r = Ret tt c' → pc c' = Some (Num 4).
Proof.
  apply (straight_program_halts source_arith).
  repeat constructor; vm_compute; intros [=].
Defined.

(** X15.  A [jmp] whose target is its own index never lets the loop
    end: whatever the fuel, the run is still going. *)
Theorem jump_to_self_never_halts
    (line a : string) (rest : list string) (p : Z) (c : cpu) (fuel : nat) :
  pc c = Some (Num p) → (0 ≤ p < pEnd c)%Z →
  fetch c = Some line →
  JsString.split " " line = "jmp" :: a :: rest →
  JsString.trim a ≠ "" →
  parseArgs (JsString.trim a) 0 1 c = Ret (Num p) c →
  main fuel c = None.
Proof.
  intros Hpc Hp Hline Hsplit Hargs Hjd.
  assert (Hsame : ∀ v, pc c = Some v → write "pc" v c = c).
  { intros v Hv. destruct c as [i e regs]. unfold write, pc in *; simpl in *.
    by rewrite insert_id. }
  assert (Hexec : exec line c = Ret tt c).
  { assert (Hjmp : jmp (JsString.trim a) c
                   = Ret tt (write "pc" (Num (p - 1)) c)).
    { unfold jmp, mbind, M_bind. rewrite Hjd.
      unfold JsNumber.gt, JsNumber.lt, JsNumber.sub.
      destruct (Z.ltb_spec p 0), (Z.ltb_spec (pEnd c) p); simpl;
        try done; lia. }
    rewrite (exec_dispatch line "jmp" a rest h_jmp c Hsplit eq_refl Hargs).
    unfold mbind, M_bind. change (run_handler h_jmp) with jmp. rewrite Hjmp.
    unfold incr_pc. rewrite pc_write_pc, write_write.
    change (JsNumber.add (JsNumber.toNumber (Some (Num (p - 1)))) (Num 1))
      with (Num (p - 1 + 1)).
    replace (p - 1 + 1)%Z with p by lia. by rewrite Hsame. }
  assert (Hlt : JsNumber.lt (JsNumber.toNumber (pc c)) (Num (pEnd c)) = true).
  { rewrite Hpc. simpl. apply Z.ltb_lt. lia. }
  induction fuel as [|fuel IH]; simpl; rewrite Hlt; [done |].
  by rewrite Hline, Hexec.
Qed.

Lemma jump_to_self_never_halts_witness :
  main 1000 (state_of (load "jmp #0" jscpu)) = None.
Proof.
  apply (jump_to_self_never_halts "jmp #0" "#0" [] 0);
    [reflexivity | simpl; lia | reflexivity | reflexivity | done | reflexivity].
Defined.

(** ** Loading, again *)

Lemma split_app (sep : ascii) (a b : string) :
  JsString.split sep (a +:+ String sep b)
  = JsString.split sep a ++ JsString.split sep b.
Proof.
  induction a as [|x a IH]; simpl.
  - by rewrite Ascii.eqb_refl.
  - destruct (Ascii.eqb x sep); [by rewrite IH |].
    rewrite IH. pose proof (split_length sep a) as Hlen.
    destruct (JsString.split sep a) as [|y ys]; [simpl in Hlen; lia | done].
Qed.

Lemma program_lines_app (asm1 asm2 : string) :
  program_lines (asm1 +:+ nl +:+ asm2)
  = program_lines asm1 ++ program_lines asm2.
Proof.
  unfold program_lines, nl.
  change (asm1 +:+ String "010" "" +:+ asm2)
    with (asm1 +:+ String "010" asm2).
  by rewrite split_app, fmap_app, filter_app.
Qed.

(** X16.  Loading two sources one after the other on the same machine
    leaves it exactly as a single load of the first, a line break and the
    second: [init] accumulates programs. *)
Theorem successive_loads_concatenate (asm1 asm2 : string) (c : cpu) :
  load asm2 (state_of (load asm1 c)) = load (asm1 +:+ nl +:+ asm2) c.
Proof.
  rewrite !load_appends. simpl.
  by rewrite program_lines_app, app_assoc.
Qed.

Lemma trimEnd_idem (s : string) :
  JsString.trimEnd (JsString.trimEnd s) = JsString.trimEnd s.
Proof.
  induction s as [|a s IH]; simpl; [done |].
  destruct (JsString.trimEnd s) as [|b t] eqn:Ht.
  - destruct (JsString.isWhiteSpace a) eqn:Ha; simpl; [done |].
    by rewrite Ha.
  - change (JsString.trimEnd (String a (String b t)))
      with (match JsString.trimEnd (String b t) with
            | EmptyString => if JsString.isWhiteSpace a then EmptyString
                             else String a EmptyString
            | t' => String a t'
            end).
    by rewrite IH.
Qed.

Lemma trimEnd_head (a : ascii) (s : string) :
  JsString.isWhiteSpace a = false →
  ∃ t, JsString.trimEnd (String a s) = String a t.
Proof.
  intros Ha. simpl. destruct (JsString.trimEnd s); [rewrite Ha |]; eauto.
Qed.

Lemma trim_idem (s : string) : JsString.trim (JsString.trim s) = JsString.trim s.
Proof.
  unfold JsString.trim.
  assert (Hstart : JsString.trimStart (JsString.trimEnd (JsString.trimStart s))
                   = JsString.trimEnd (JsString.trimStart s)).
  { induction s as [|a s IH]; simpl; [done |].
    destruct (JsString.isWhiteSpace a) eqn:Ha; [exact IH |].
    destruct (trimEnd_head a s Ha) as [t ->]. simpl. by rewrite Ha. }
  by rewrite Hstart, trimEnd_idem.
Qed.

(** X17.  Every line [init] stores is not empty and is already trimmed:
    it has no white space at either end. *)
Theorem stored_lines_are_trimmed (asm line : string) :
  line ∈ program_lines asm →
  line ≠ "" ∧ JsString.trim line = line.
Proof.
  unfold program_lines.
  intros [Hne (raw & -> & _)%list_elem_of_fmap]%list_elem_of_filter.
  split; [done | apply trim_idem].
Qed.

Lemma stored_lines_are_trimmed_witness :
  "add #1,r0" ≠ "" ∧ JsString.trim "add #1,r0" = "add #1,r0".
Proof.
  apply (stored_lines_are_trimmed ("  mov r0,#0" +:+ nl +:+ " add #1,r0  ")).
  vm_compute. set_solver.
Defined.

(** ** The sample program *)

(** More fuel does not change how a run ends. *)
Lemma main_more_fuel (fuel extra : nat) (c : cpu) (r : result unit) :
  main fuel c = Some r → main (fuel + extra) c = Some r.
Proof.
  revert c. induction fuel as [|fuel IH]; intros c.
  - simpl. destruct (JsNumber.lt _ _) eqn:Hlt; [done |].
    intros [= <-]. by apply main_halt.
  - simpl. destruct (JsNumber.lt _ _); [| done].
    destruct (fetch c); [| done].
    destruct (exec _ c); [apply IH | done].
Qed.

(** X18.  The program the file itself loads and runs: it executes 172
    instructions, no fewer, and returns normally with [r0 = 0], [r1 = 5],
    [s = 1], both flags 0 and [pc = 9], its number of lines. *)
Theorem sample_program_run (fuel : nat) :
  (fuel < 172 → init fuel source jscpu = None)
  ∧ (172 ≤ fuel →
     ∃ c, init fuel source jscpu = Some (Ret tt c)
        ∧ regs_list c =
            [("r0", Some (Num 0)); ("r1", Some (Num 5)); ("s", Some (Num 1));
             ("ovfl", Some (Num 0)); ("udfl", Some (Num 0));
             ("pc", Some (Num 9))]
        ∧ pEnd c = 9%Z).
Proof.
  assert (H171 : init 171 source jscpu = None) by (vm_compute; reflexivity).
  assert (H172 : ∃ c, init 172 source jscpu = Some (Ret tt c)
        ∧ regs_list c =
            [("r0", Some (Num 0)); ("r1", Some (Num 5)); ("s", Some (Num 1));
             ("ovfl", Some (Num 0)); ("udfl", Some (Num 0));
             ("pc", Some (Num 9))]
        ∧ pEnd c = 9%Z).
  { destruct (init 172 source jscpu) as [[[] c|]|] eqn:Hrun;
      try (vm_compute in Hrun; discriminate Hrun).
    exists c. split; [done |].
    vm_compute in Hrun. injection Hrun as <-. split; vm_compute; reflexivity. }
  unfold init in *. rewrite load_appends in *.
  split; intros Hfuel.
  - destruct (main fuel _) as [r|] eqn:Hrun; [| done].
    apply (main_more_fuel fuel (171 - fuel)) in Hrun.
    replace (fuel + (171 - fuel)) with 171 in Hrun by lia. congruence.
  - destruct H172 as (c & Hrun & Hc). exists c. split; [| exact Hc].
    apply (main_more_fuel 172 (fuel - 172)) in Hrun.
    by replace (172 + (fuel - 172)) with fuel in Hrun by lia.
Qed.

Lemma sample_program_run_witness :
  ∃ c, init 1000 source jscpu = Some (Ret tt c) ∧ pEnd c = 9%Z.
Proof.
  destruct (sample_program_run 1000) as [_ H].
  destruct H as (c & Hrun & _ & HpEnd); [lia |].
  exists c. split; [exact Hrun | exact HpEnd].
Defined.

(** ** The earlier revision *)

(** X19.  An instruction of the earlier revision whose operand text is
    not blank does exactly what the later revision does on the same line
    with the opcode in lower case: the same result or error, the same
    machine afterwards.  (With a blank operand both fail, each naming
    its own spelling of the opcode.) *)
Theorem earlier_exec_is_later_exec
    (line line' OP op a : string) (rest rest' : list string) (c : cpu) :
  (OP, op) ∈ renamed_opcodes →
  JsString.split " " line = OP :: a :: rest →
  JsString.split " " line' = op :: a :: rest' →
  JsString.trim a ≠ "" →
  Earlier.exec line c = exec line' c.
Proof.
  unfold renamed_opcodes. rewrite !elem_of_cons, elem_of_nil.
  intros Hop Hline Hline' Hargs.
  unfold Earlier.exec, exec. rewrite Hline, Hline'.
  destruct Hop as [[= -> ->] | [[= -> ->] | [[= -> ->] | []]]];
    match goal with
    | |- context [instructionSet !! ?o] =>
        replace (Earlier.instructionSet !! _) with (instructionSet !! o)
          by reflexivity;
        replace (instructionSet !! o) with (Some (Some
          (if decide (o = "add") then h_add
           else if decide (o = "sub") then h_sub else h_mov)))
          by reflexivity
    end;
    by case_decide.
Qed.

Lemma earlier_exec_is_later_exec_witness :
  Earlier.exec "ADD #1,r0" jscpu = exec "add #1,r0" jscpu.
Proof.
  apply (earlier_exec_is_later_exec "ADD #1,r0" "add #1,r0" "ADD" "add"
           "#1,r0" [] []);
    [unfold renamed_opcodes; set_solver | reflexivity | reflexivity | done].
Defined.

(** X20.  No opcode is known to both revisions: a line with a space is
    refused as an unknown opcode by at least one of them, so a program
    written for one fails at its first line on the other. *)
Theorem revisions_share_no_opcode (line : string) (c c' : cpu) :
  JsString.contains " " line = true →
  is_unknown_opcode (exec line c) = true
  ∨ is_unknown_opcode (Earlier.exec line c') = true.
Proof.
  intros Hsp. destruct (split_space line Hsp) as [rest Hsplit].
  unfold exec, Earlier.exec. rewrite Hsplit.
  destruct (instructionSet !! text_before " " line) as [f|] eqn:Hop;
    [right | by left].
  unfold instructionSet in Hop. apply elem_of_list_to_map_2 in Hop.
  rewrite !elem_of_cons, elem_of_nil in Hop.
  destruct Hop as [H|[H|[H|[H|[H|[H|[H|[H|[H|[]]]]]]]]]];
    injection H as -> _; reflexivity.
Qed.

Lemma revisions_share_no_opcode_witness :
  is_unknown_opcode (exec "MOV r0,#255" jscpu) = true
  ∨ is_unknown_opcode (Earlier.exec "MOV r0,#255" jscpu) = true.
Proof.
  apply (revisions_share_no_opcode "MOV r0,#255" jscpu jscpu). reflexivity.
Defined.

Lemma earlier_main_more_fuel (fuel extra : nat) (c : cpu) (r : result unit) :
  Earlier.main fuel c = Some r → Earlier.main (fuel + extra) c = Some r.
Proof.
  revert c. induction fuel as [|fuel IH]; intros c.
  - simpl. destruct (JsNumber.lt _ _) eqn:Hlt; [done |].
    intros [= <-]. destruct extra; simpl; by rewrite Hlt.
  - simpl. destruct (JsNumber.lt _ _); [| done].
    destruct (fetch c); [| done].
    destruct (Earlier.exec _ c); [apply IH | done].
Qed.

(** X21.  The program the earlier revision loads and runs: it executes
    four instructions, no fewer, and returns normally with [r0 = 255],
    [r1 = 205], [ovfl = 1], [udfl = 0], [s = 0] and [pc = 4]. *)
Theorem earlier_sample_program_run (fuel : nat) :
  (fuel < 4 → Earlier.init fuel Earlier.source jscpu = None)
  ∧ (4 ≤ fuel →
     ∃ c, Earlier.init fuel Earlier.source jscpu = Some (Ret tt c)
        ∧ regs_list c =
            [("r0", Some (Num 255)); ("r1", Some (Num 205));
             ("s", Some (Num 0)); ("ovfl", Some (Num 1));
             ("udfl", Some (Num 0)); ("pc", Some (Num 4))]).
Proof.
  assert (H3 : Earlier.init 3 Earlier.source jscpu = None)
    by (vm_compute; reflexivity).
  assert (H4 : ∃ c, Earlier.init 4 Earlier.source jscpu = Some (Ret tt c)
        ∧ regs_list c =
            [("r0", Some (Num 255)); ("r1", Some (Num 205));
             ("s", Some (Num 0)); ("ovfl", Some (Num 1));
             ("udfl", Some (Num 0)); ("pc", Some (Num 4))]).
  { destruct (Earlier.init 4 Earlier.source jscpu) as [[[] c|]|] eqn:Hrun;
      try (vm_compute in Hrun; discriminate Hrun).
    exists c. split; [done |].
    vm_compute in Hrun. injection Hrun as <-. vm_compute. reflexivity. }
  unfold Earlier.init in *. rewrite load_appends in *.
  split; intros Hfuel.
  - destruct (Earlier.main fuel _) as [r|] eqn:Hrun; [| done].
    apply (earlier_main_more_fuel fuel (3 - fuel)) in Hrun.
    replace (fuel + (3 - fuel)) with 3 in Hrun by lia. congruence.
  - destruct H4 as (c & Hrun & Hc). exists c. split; [| exact Hc].
    apply (earlier_main_more_fuel 4 (fuel - 4)) in Hrun.
    by replace (4 + (fuel - 4)) with fuel in Hrun by lia.
Qed.

Lemma earlier_sample_program_run_witness :
  ∃ c, Earlier.init 10 Earlier.source jscpu = Some (Ret tt c).
Proof.
  destruct (earlier_sample_program_run 10) as [_ H].
  destruct H as (c & Hrun & _); [lia |].
  exists c. exact Hrun.
Defined.
